(** * Request-scoped audit context of ouharri/audit: model and properties

    The development follows the Go sources:
    - [core/context.go]    the accumulator [AuditableContext], its setters and
                           [ToEvent];
    - [core/domain.go]     [AuditEvent] with its JSON struct tags, and the
                           decorators [AuditableCreate] ... [AuditableAction];
    - the option constructors [WithUserID] ... and [SetContext],
      [GetAuditContext];
    - [adapter/echo-adapter] the Echo middleware ([Root], [For]) and the
      package-level singleton ([Configure]).

    Go pointers to accumulators are addresses into an explicit heap, calls that
    mutate an accumulator are heap transformers, and a Go panic is the
    [Panic] outcome.  The packages [encoding/json], [context], [time] and
    [echo] are not part of the repository: the JSON value encoder and decoder
    are parameters of the development (class [Encoding]), and only the parts
    of the other three that the sources touch are represented. *)

From Stdlib Require Import ZArith.
From Stdlib.Strings Require Import Byte Ascii.
From stdpp Require Import base option list strings gmap fin_maps pretty sorting.

(** ** Go values *)

(** What an interface variable may hold is open-ended in Go, so the
    development is parametric in the type of non-nil dynamic values.  [None]
    is the nil interface. *)
Class Universe := { value : Type }.

Definition any `{Universe} : Type := option value.

(** [[]byte]; [json.RawMessage] is a byte slice that may be nil. *)
Abbreviation bytes := (list byte).

(** [map[string]interface{}]; [None] is the nil map. *)
Abbreviation gomap := (option (gmap string any)).

(** [time.Time], an instant. *)
Definition Time : Type := Z.

Definition ActionType : Type := string.
Definition EntityType : Type := string.

(** A call that returns [(T, error)]. *)
Inductive result (A : Type) : Type :=
| Ok (a : A)
| Err (e : string).
Arguments Ok {A} a.
Arguments Err {A} e.

(** A call that returns normally or panics. *)
Inductive outcome (A : Type) : Type :=
| Done (a : A)
| Panic (msg : string).
Arguments Done {A} a.
Arguments Panic {A} msg.

Definition obind {A B} (m : outcome A) (k : A → outcome B) : outcome B :=
  match m with
  | Done a => k a
  | Panic msg => Panic msg
  end.

Notation "x ←! m ; k" := (obind m (λ x, k))
  (at level 100, m at next level, right associativity, only parsing).

(** ** core/context.go: the accumulator *)

(** The fields of [AuditableContext] but [mu]: the mutex carries no data, and
    its discipline is the subject of the interleaving model further down.
    [ResponseCode] is a Go [int]; it is only assigned and compared, never
    computed with, so no wrap-around is involved. *)
Record AuditableContext `{Universe} : Type := mkAuditableContext {
  TraceID : any;
  UserID : any;
  Action : option ActionType;
  Resource : option EntityType;
  ResourceID : any;
  OldData : any;
  NewData : any;
  Metadata : gomap;
  IPAddress : string;
  UserAgent : string;
  RequestURI : string;
  Method : string;
  ResponseCode : Z;
  StartTime : Time;
  EndTime : Time
}.

(** Accumulators live in a heap; [*AuditableContext] is an address or the nil
    pointer [None]. *)
Abbreviation loc := positive.
Abbreviation ptr := (option positive).
Abbreviation heap := (gmap positive AuditableContext).

(** ** core/domain.go: the emitted event *)

Module Event.
Record AuditEvent `{Universe} : Type := mkAuditEvent {
  TraceID : any;
  UserID : any;
  Action : option ActionType;
  Resource : option EntityType;
  ResourceID : any;
  Metadata : gomap;
  IPAddress : string;
  UserAgent : string;
  RequestURI : string;
  Method : string;
  ResponseCode : Z;
  Success : bool;
  StartTime : Time;
  EndTime : Time;
  OldData : option bytes;
  NewData : option bytes
}.
End Event.
Abbreviation AuditEvent := Event.AuditEvent.

(** ** encoding/json, as far as the sources use it *)

(** The values the encoder meets in the fields of [AuditEvent], by Go type. *)
Inductive reflect_value `{Universe} : Type :=
| RInterface (a : any)
| RStringPtr (p : option string)
| RMap (m : gomap)
| RString (s : string)
| RInt (n : Z)
| RBool (b : bool)
| RTime (t : Time)
| RRawMessage (m : option bytes).

(** [encode] is the value encoder behind [json.Marshal]; [json_Unmarshal_map]
    is [json.Unmarshal(data, &m)] for a nil [m] of type
    [map[string]interface{}], returning the map it leaves in [m]. *)
Class Encoding `{Universe} := {
  encode : reflect_value → result bytes;
  json_Unmarshal_map : bytes → result gomap
}.

Definition json_Marshal `{Encoding} (v : any) : result bytes :=
  encode (RInterface v).

Section Core.
Context `{Encoding}.

(** *** Field updates *)

Definition with_UserID (userID : any) (s : AuditableContext) : AuditableContext :=
  mkAuditableContext _ (TraceID s) userID (Action s) (Resource s) (ResourceID s)
    (OldData s) (NewData s) (Metadata s) (IPAddress s) (UserAgent s)
    (RequestURI s) (Method s) (ResponseCode s) (StartTime s) (EndTime s).

Definition with_Action (a : option ActionType) (s : AuditableContext) : AuditableContext :=
  mkAuditableContext _ (TraceID s) (UserID s) a (Resource s) (ResourceID s)
    (OldData s) (NewData s) (Metadata s) (IPAddress s) (UserAgent s)
    (RequestURI s) (Method s) (ResponseCode s) (StartTime s) (EndTime s).

Definition with_Resource (r : option EntityType) (s : AuditableContext) : AuditableContext :=
  mkAuditableContext _ (TraceID s) (UserID s) (Action s) r (ResourceID s)
    (OldData s) (NewData s) (Metadata s) (IPAddress s) (UserAgent s)
    (RequestURI s) (Method s) (ResponseCode s) (StartTime s) (EndTime s).

Definition with_ResourceID (resourceID : any) (s : AuditableContext) : AuditableContext :=
  mkAuditableContext _ (TraceID s) (UserID s) (Action s) (Resource s) resourceID
    (OldData s) (NewData s) (Metadata s) (IPAddress s) (UserAgent s)
    (RequestURI s) (Method s) (ResponseCode s) (StartTime s) (EndTime s).

Definition with_OldData (data : any) (s : AuditableContext) : AuditableContext :=
  mkAuditableContext _ (TraceID s) (UserID s) (Action s) (Resource s) (ResourceID s)
    data (NewData s) (Metadata s) (IPAddress s) (UserAgent s)
    (RequestURI s) (Method s) (ResponseCode s) (StartTime s) (EndTime s).

Definition with_NewData (data : any) (s : AuditableContext) : AuditableContext :=
  mkAuditableContext _ (TraceID s) (UserID s) (Action s) (Resource s) (ResourceID s)
    (OldData s) data (Metadata s) (IPAddress s) (UserAgent s)
    (RequestURI s) (Method s) (ResponseCode s) (StartTime s) (EndTime s).

Definition with_Metadata (m : gomap) (s : AuditableContext) : AuditableContext :=
  mkAuditableContext _ (TraceID s) (UserID s) (Action s) (Resource s) (ResourceID s)
    (OldData s) (NewData s) m (IPAddress s) (UserAgent s)
    (RequestURI s) (Method s) (ResponseCode s) (StartTime s) (EndTime s).

Definition with_ResponseCode (code : Z) (s : AuditableContext) : AuditableContext :=
  mkAuditableContext _ (TraceID s) (UserID s) (Action s) (Resource s) (ResourceID s)
    (OldData s) (NewData s) (Metadata s) (IPAddress s) (UserAgent s)
    (RequestURI s) (Method s) code (StartTime s) (EndTime s).

Definition with_EndTime (t : Time) (s : AuditableContext) : AuditableContext :=
  mkAuditableContext _ (TraceID s) (UserID s) (Action s) (Resource s) (ResourceID s)
    (OldData s) (NewData s) (Metadata s) (IPAddress s) (UserAgent s)
    (RequestURI s) (Method s) (ResponseCode s) (StartTime s) t.

(** *** The bodies of the methods, on the accumulator they point to *)

(** [if ac.Metadata == nil { ac.Metadata = make(...) }] *)
Definition make_if_nil (m : gomap) : gmap string any :=
  match m with
  | Some entries => entries
  | None => ∅
  end.

(** [for k, v := range metadata { target[k] = v }]; ranging over a nil map
    runs the body zero times. *)
Definition range_assign (metadata : gomap) (target : gmap string any) : gmap string any :=
  match metadata with
  | Some entries =>
      foldl (λ acc kv, <[kv.1 := kv.2]> acc) target (map_to_list entries)
  | None => target
  end.

Definition set_metadata (key : string) (v : any) (s : AuditableContext) : AuditableContext :=
  with_Metadata (Some (<[key := v]> (make_if_nil (Metadata s)))) s.

Definition set_bulk_metadata (metadata : gomap) (s : AuditableContext) : AuditableContext :=
  with_Metadata (Some (range_assign metadata (make_if_nil (Metadata s)))) s.

(** [if x != nil { if data, err := json.Marshal(x); err == nil { field = data } }] *)
Definition marshal_if_set (x : any) : option bytes :=
  match x with
  | None => None
  | Some _ =>
      match json_Marshal x with
      | Ok data => Some data
      | Err _ => None
      end
  end.

(** The body of [ToEvent] on the accumulator it reads.  In Go the event
    shares the accumulator's map; here it carries the entries the map has at
    the time of the call. *)
Definition to_event (s : AuditableContext) : AuditEvent :=
  {| Event.TraceID := TraceID s;
     Event.UserID := UserID s;
     Event.Action := Action s;
     Event.Resource := Resource s;
     Event.ResourceID := ResourceID s;
     Event.Metadata := Metadata s;
     Event.IPAddress := IPAddress s;
     Event.UserAgent := UserAgent s;
     Event.RequestURI := RequestURI s;
     Event.Method := Method s;
     Event.ResponseCode := ResponseCode s;
     Event.StartTime := StartTime s;
     Event.EndTime := EndTime s;
     Event.Success := (200 <=? ResponseCode s)%Z && (ResponseCode s <? 400)%Z;
     Event.OldData := marshal_if_set (OldData s);
     Event.NewData := marshal_if_set (NewData s) |}.

(** *** The heap and the methods on [*AuditableContext] *)

(** A method called on the nil pointer panics at [ac.mu.Lock()].  Go has no
    dangling pointers; an address outside the heap is a fault of the caller
    of the model and is reported the same way. *)

Definition load (ac : ptr) (h : heap) : outcome AuditableContext :=
  match ac with
  | None => Panic "nil pointer dereference"
  | Some l =>
      match h !! l with
      | Some s => Done s
      | None => Panic "unallocated address"
      end
  end.

Definition modify (ac : ptr) (f : AuditableContext → AuditableContext) (h : heap) : outcome heap :=
  match ac with
  | None => Panic "nil pointer dereference"
  | Some l =>
      match h !! l with
      | Some s => Done (<[l := f s]> h)
      | None => Panic "unallocated address"
      end
  end.

Definition SetUserID (ac : ptr) (userID : any) : heap → outcome heap :=
  modify ac (with_UserID userID).

Definition SetResourceID (ac : ptr) (resourceID : any) : heap → outcome heap :=
  modify ac (with_ResourceID resourceID).

Definition SetOldData (ac : ptr) (data : any) : heap → outcome heap :=
  modify ac (with_OldData data).

Definition SetNewData (ac : ptr) (data : any) : heap → outcome heap :=
  modify ac (with_NewData data).

Definition SetMetadata (ac : ptr) (key : string) (v : any) : heap → outcome heap :=
  modify ac (set_metadata key v).

Definition SetBulkMetadata (ac : ptr) (metadata : gomap) : heap → outcome heap :=
  modify ac (set_bulk_metadata metadata).

Definition ToEvent (ac : ptr) (h : heap) : outcome AuditEvent :=
  s ←! load ac h; Done (to_event s).

(** *** context.Context, as far as the sources use it *)

(** Keys are compared with [==]: the package's own [AuditableCtxKey] (of the
    private type [auditCtxKey]) is different from every key of another
    type.  A binding under it holds a [*AuditableContext] or, since the key
    is exported, any other value. *)
Inductive ctx_key : Type :=
| AuditableCtxKey
| ForeignKey (name : string).

Inductive ctx_value : Type :=
| AuditPointer (ac : ptr)
| ForeignValue (v : any).

Global Instance ctx_key_eq_dec : EqDecision ctx_key.
Proof. solve_decision. Defined.

(** A (non-nil) [context.Context]: the chain of [context.WithValue]
    bindings, innermost first. *)
Definition Context : Type := list (ctx_key * ctx_value).

Definition WithValue (parent : Context) (k : ctx_key) (v : ctx_value) : Context :=
  (k, v) :: parent.

(** [ctx.Value(key)]: the interface value bound to the key, [None] for the
    nil interface.  A nil [*AuditableContext] stored in an interface is not
    the nil interface. *)
Fixpoint Value (ctx : Context) (k : ctx_key) : option ctx_value :=
  match ctx with
  | [] => None
  | (k', v) :: parent =>
      if decide (k' = k)
      then match v with
           | ForeignValue None => None
           | _ => Some v
           end
      else Value parent k
  end.

(** *** part_000: options, SetContext, GetAuditContext *)

Definition GetAuditContext (ctx : Context) : ptr :=
  match Value ctx AuditableCtxKey with
  | Some raw =>
      match raw with
      | AuditPointer ac => ac
      | ForeignValue _ => None
      end
  | None => None
  end.

(** [type ContextOption func(ac *AuditableContext)] *)
Definition ContextOption : Type := ptr → heap → outcome heap.

Definition WithUserID (userID : any) : ContextOption :=
  λ ac, SetUserID ac userID.

Definition WithResourceID (resourceID : any) : ContextOption :=
  λ ac, SetResourceID ac resourceID.

Definition WithOldData (data : any) : ContextOption :=
  λ ac, SetOldData ac data.

Definition WithNewData (data : any) : ContextOption :=
  λ ac, SetNewData ac data.

Definition WithMetadata (key : string) (v : any) : ContextOption :=
  λ ac, SetMetadata ac key v.

Definition WithBulkMetadata (metadata : gomap) : ContextOption :=
  λ ac, SetBulkMetadata ac metadata.

(** [for _, opt := range opts { opt(ac) }] *)
Fixpoint apply_options (ac : ptr) (opts : list ContextOption) (h : heap) : outcome heap :=
  match opts with
  | [] => Done h
  | opt :: rest => h' ←! opt ac h; apply_options ac rest h'
  end.

Definition SetContext (ctx : Context) (opts : list ContextOption) (h : heap) : outcome heap :=
  match GetAuditContext ctx with
  | Some l => apply_options (Some l) opts h
  | None => Done h
  end.

(** *** core/domain.go (second part): the decorators *)

Definition AuditableCreate (ctx : Context) (resourceID newData : any) : heap → outcome heap :=
  SetContext ctx [WithResourceID resourceID; WithNewData newData].

Definition AuditableUpdate (ctx : Context) (resourceID oldData newData : any)
  : heap → outcome heap :=
  SetContext ctx [WithResourceID resourceID; WithOldData oldData; WithNewData newData].

Definition AuditableDelete (ctx : Context) (resourceID oldData : any) : heap → outcome heap :=
  SetContext ctx [WithResourceID resourceID; WithOldData oldData].

Definition AuditableGet (ctx : Context) (resourceID : any) : heap → outcome heap :=
  SetContext ctx [WithResourceID resourceID].

Definition AuditableList (ctx : Context) (metadata : gomap) (h : heap) : outcome heap :=
  match metadata with
  | Some _ => SetContext ctx [WithBulkMetadata metadata] h
  | None => Done h
  end.

Definition AuditablePage (ctx : Context) (pageData : any) (h : heap) : outcome heap :=
  match json_Marshal pageData with
  | Err _ => Done h
  | Ok data =>
      match json_Unmarshal_map data with
      | Err _ => Done h
      | Ok metadata => SetContext ctx [WithBulkMetadata metadata] h
      end
  end.

Definition AuditableAction (ctx : Context) (resourceID : any) (metadata : gomap)
  : heap → outcome heap :=
  let opts := [WithResourceID resourceID] in
  let opts := match metadata with
              | Some _ => opts ++ [WithBulkMetadata metadata]
              | None => opts
              end in
  SetContext ctx opts.

(** *** The serialized event: encoding/json on the struct [AuditEvent] *)

(** One exported field with its tag [json:"key"] or [json:"key,omitempty"]. *)
Record struct_field : Type := mkField {
  json_key : string;
  omitempty : bool;
  field_value : reflect_value
}.

(** The fields of [AuditEvent] in declaration order, with the tags of
    core/domain.go. *)
Definition AuditEvent_fields (e : AuditEvent) : list struct_field :=
  [ mkField "traceId" false (RInterface (Event.TraceID e));
    mkField "userId" true (RInterface (Event.UserID e));
    mkField "action" true (RStringPtr (Event.Action e));
    mkField "resource" true (RStringPtr (Event.Resource e));
    mkField "resourceId" true (RInterface (Event.ResourceID e));
    mkField "metadata" true (RMap (Event.Metadata e));
    mkField "ipAddress" true (RString (Event.IPAddress e));
    mkField "userAgent" true (RString (Event.UserAgent e));
    mkField "requestUri" true (RString (Event.RequestURI e));
    mkField "method" true (RString (Event.Method e));
    mkField "responseCode" true (RInt (Event.ResponseCode e));
    mkField "success" true (RBool (Event.Success e));
    mkField "startTime" false (RTime (Event.StartTime e));
    mkField "endTime" false (RTime (Event.EndTime e));
    mkField "oldData" true (RRawMessage (Event.OldData e));
    mkField "newData" true (RRawMessage (Event.NewData e)) ].

(** The empty values of encoding/json: false, 0, a nil pointer, a nil
    interface value, and any empty array, slice, map or string; a struct
    such as [time.Time] is never empty. *)
Definition isEmptyValue (v : reflect_value) : bool :=
  match v with
  | RInterface a => if a is None then true else false
  | RStringPtr p => if p is None then true else false
  | RMap m => Nat.eqb (size (make_if_nil m)) 0
  | RString s => Nat.eqb (String.length s) 0
  | RInt n => (n =? 0)%Z
  | RBool b => negb b
  | RTime _ => false
  | RRawMessage m => Nat.eqb (length (default [] m)) 0
  end.

(** The struct encoder: fields in order, a field tagged omitempty skipped
    when its value is empty, and the first encoding error aborts the whole
    call.  The result lists the members of the JSON object written, each key
    with the text of its value. *)
Fixpoint encode_fields (fields : list struct_field) : result (list (string * bytes)) :=
  match fields with
  | [] => Ok []
  | f :: rest =>
      if omitempty f && isEmptyValue (field_value f)
      then encode_fields rest
      else match encode (field_value f) with
           | Err e => Err e
           | Ok text =>
               match encode_fields rest with
               | Err e => Err e
               | Ok members => Ok ((json_key f, text) :: members)
               end
           end
  end.

(** [json.Marshal(event)] *)
Definition Marshal_AuditEvent (e : AuditEvent) : result (list (string * bytes)) :=
  encode_fields (AuditEvent_fields e).

Definition has_key (k : string) (members : list (string * bytes)) : Prop :=
  k ∈ members.*1.

(** A field is written unless it is tagged omitempty and holds an empty
    value. *)
Definition written (f : struct_field) : Prop :=
  omitempty f && isEmptyValue (field_value f) = false.

End Core.

(** ** adapter/echo-adapter: the Echo middleware *)

Section Echo.
Context `{Encoding}.

(** [*echo.Response]; the middleware reads [Status] only. *)
Record Response : Type := mkResponse { Status : Z }.

(** The [echo.Context] of the request being served: what [c.Request()],
    [c.RealIP()], [c.Response()] and [c.Get]/[c.Set] give access to. *)
Record EchoContext : Type := mkEchoContext {
  request_Context : Context;
  RealIP : string;
  request_UserAgent : string;
  request_RequestURI : string;
  request_Method : string;
  response : option Response;
  store : gmap string ctx_value
}.

(** [go auditor.Audit(ctx, event)]: a started goroutine, with the arguments
    evaluated by the goroutine that started it. *)
Record goroutine : Type := GoAudit {
  go_auditor : nat;
  go_ctx : Context;
  go_event : AuditEvent
}.

(** All a handler can reach: the accumulators, the Echo context of the
    request, the clock read by [time.Now()] and the goroutines started so
    far. *)
Record World : Type := mkWorld {
  wheap : heap;
  wecho : EchoContext;
  wclock : Time;
  wspawned : list goroutine
}.

Definition set_heap (h : heap) (w : World) : World :=
  mkWorld h (wecho w) (wclock w) (wspawned w).

Definition set_echo (c : EchoContext) (w : World) : World :=
  mkWorld (wheap w) c (wclock w) (wspawned w).

Definition spawn (g : goroutine) (w : World) : World :=
  mkWorld (wheap w) (wecho w) (wclock w) (wspawned w ++ [g]).

(** [echo.HandlerFunc]: [func(c echo.Context) error], [None] the nil error. *)
Definition HandlerFunc : Type := World → outcome (option string * World).
Definition MiddlewareFunc : Type := HandlerFunc → HandlerFunc.

(** [transport.Config] (part_002).  A nil func or interface is [None]; the
    auditor is known by an identity only, its code being the user's. *)
Record Config : Type := mkConfig {
  Auditor : option nat;
  NewTraceID : option (World → any * World);
  UserFromContext : option (Context → any);
  Skipper : option (Context → bool)
}.

Record EchoMw : Type := mkEchoMw { cfg : Config }.

Definition NewEchoMiddleware (c : Config) : EchoMw := mkEchoMw c.

(** [string(core.AuditableCtxKey)] *)
Definition audit_store_key : string := "_audit_ctx".

(** part_000, [SetEchoAuditContext]: [c.Set] and [c.SetRequest]. *)
Definition SetEchoAuditContext (auditCtx : ptr) (c : EchoContext) : EchoContext :=
  let st := <[audit_store_key := AuditPointer auditCtx]> (store c) in
  let ctxWithAudit := WithValue (request_Context c) AuditableCtxKey (AuditPointer auditCtx) in
  mkEchoContext ctxWithAudit (RealIP c) (request_UserAgent c) (request_RequestURI c)
    (request_Method c) (response c) st.

(** The composite literal of [Root]: the fields not listed are zero. *)
Definition new_AuditableContext (traceID : any) (c : EchoContext) (now : Time)
  : AuditableContext :=
  {| TraceID := traceID;
     UserID := None;
     Action := None;
     Resource := None;
     ResourceID := None;
     OldData := None;
     NewData := None;
     Metadata := Some ∅;
     IPAddress := RealIP c;
     UserAgent := request_UserAgent c;
     RequestURI := request_RequestURI c;
     Method := request_Method c;
     ResponseCode := 0%Z;
     StartTime := now;
     EndTime := 0%Z |}.

(** [em.cfg.Skipper != nil && em.cfg.Skipper(ctx)] *)
Definition skipped (em : EchoMw) (ctx : Context) : bool :=
  match Skipper (cfg em) with
  | Some skipper => skipper ctx
  | None => false
  end.

(** [if resp := c.Response(); resp != nil { auditCtx.ResponseCode = resp.Status }] *)
Definition stamp_response (l : loc) (c : EchoContext) (h : heap) : outcome heap :=
  match response c with
  | Some resp => modify (Some l) (with_ResponseCode (Status resp)) h
  | None => Done h
  end.

(** [auditCtx.Resource != nil && auditCtx.Action != nil] *)
Definition trigger (s : AuditableContext) : bool :=
  match Resource s, Action s with
  | Some _, Some _ => true
  | _, _ => false
  end.

(** The last statements of the handler [Root] builds, from the return of
    [next] on. *)
Definition finish (em : EchoMw) (ctx : Context) (l : loc) (err : option string) (w : World)
  : outcome (option string * World) :=
  h ←! modify (Some l) (with_EndTime (wclock w)) (wheap w);
  h ←! stamp_response l (wecho w) h;
  s ←! load (Some l) h;
  if trigger s
  then match Auditor (cfg em) with
       | Some auditor =>
           event ←! ToEvent (Some l) h;
           Done (err, spawn (GoAudit auditor ctx event) (set_heap h w))
       | None => Panic "nil pointer dereference"
       end
  else Done (err, set_heap h w).

(** What the accumulator holds once [Root] has stamped the end time and
    the status of the response, if there is a response. *)
Definition stamped (w : World) (s : AuditableContext) : AuditableContext :=
  let s := with_EndTime (wclock w) s in
  match response (wecho w) with
  | Some resp => with_ResponseCode (Status resp) s
  | None => s
  end.

(** The address the next [&core.AuditableContext{...}] is allocated at. *)
Definition new_loc (h : heap) : loc := fresh (dom h).

Definition EchoMw_Root (em : EchoMw) : MiddlewareFunc := λ next w,
  let ctx := request_Context (wecho w) in
  if skipped em ctx
  then next w
  else match NewTraceID (cfg em) with
       | None => Panic "nil pointer dereference"
       | Some newTraceID =>
           let '(traceID, w) := newTraceID w in
           let l := new_loc (wheap w) in
           let auditCtx := new_AuditableContext traceID (wecho w) (wclock w) in
           let w := set_heap (<[l := auditCtx]> (wheap w)) w in
           let w := set_echo (SetEchoAuditContext (Some l) (wecho w)) w in
           obind (next w) (λ '(err, w), finish em ctx l err w)
       end.

(** [if u := em.cfg.UserFromContext(ctx); u != nil { auditCtx.UserID = u }],
    under [em.cfg.UserFromContext != nil]. *)
Definition stamp_user (em : EchoMw) (auditCtx : ptr) (ctx : Context) (h : heap) : outcome heap :=
  match UserFromContext (cfg em) with
  | Some userFromContext =>
      match userFromContext ctx with
      | Some u => modify auditCtx (with_UserID (Some u)) h
      | None => Done h
      end
  | None => Done h
  end.

Definition EchoMw_For (em : EchoMw) (resource : EntityType) : ActionType → MiddlewareFunc :=
  λ action next w,
    match store (wecho w) !! audit_store_key with
    | Some (AuditPointer auditCtx) =>
        obind (h ←! modify auditCtx (with_Resource (Some resource)) (wheap w);
               h ←! modify auditCtx (with_Action (Some action)) h;
               stamp_user em auditCtx (request_Context (wecho w)) h)
              (λ h, next (set_heap h w))
    | _ => next w
    end.

(** *** config.go: the package-level singleton *)

(** The package variables [once] and [mw]. *)
Record package_state : Type := mkPackage {
  once_done : bool;
  mw : option EchoMw
}.

Definition package_init : package_state := mkPackage false None.

(** [once.Do(func() { mw = NewEchoMiddleware(cfg) })] *)
Definition Configure (c : Config) (g : package_state) : package_state :=
  if once_done g
  then g
  else mkPackage true (Some (NewEchoMiddleware c)).

Definition Root (g : package_state) : outcome MiddlewareFunc :=
  match mw g with
  | None => Panic "echo audit: call Configure(auditor) before Root()"
  | Some m => Done (EchoMw_Root m)
  end.

Definition For (g : package_state) (resource : EntityType)
  : outcome (ActionType → MiddlewareFunc) :=
  match mw g with
  | None => Panic "echo audit: call Configure(auditor) before For()"
  | Some m => Done (EchoMw_For m resource)
  end.

End Echo.

(** ** Sequences of calls to the core's mutation API *)

Section Calls.
Context `{Encoding}.

Inductive core_call : Type :=
| Call_SetUserID (ac : ptr) (userID : any)
| Call_SetResourceID (ac : ptr) (resourceID : any)
| Call_SetOldData (ac : ptr) (data : any)
| Call_SetNewData (ac : ptr) (data : any)
| Call_SetMetadata (ac : ptr) (key : string) (v : any)
| Call_SetBulkMetadata (ac : ptr) (metadata : gomap)
| Call_ToEvent (ac : ptr)
| Call_AuditableCreate (ctx : Context) (resourceID newData : any)
| Call_AuditableUpdate (ctx : Context) (resourceID oldData newData : any)
| Call_AuditableDelete (ctx : Context) (resourceID oldData : any)
| Call_AuditableGet (ctx : Context) (resourceID : any)
| Call_AuditableList (ctx : Context) (metadata : gomap)
| Call_AuditablePage (ctx : Context) (pageData : any)
| Call_AuditableAction (ctx : Context) (resourceID : any) (metadata : gomap).

Definition run_call (c : core_call) (h : heap) : outcome heap :=
  match c with
  | Call_SetUserID ac userID => SetUserID ac userID h
  | Call_SetResourceID ac resourceID => SetResourceID ac resourceID h
  | Call_SetOldData ac data => SetOldData ac data h
  | Call_SetNewData ac data => SetNewData ac data h
  | Call_SetMetadata ac key v => SetMetadata ac key v h
  | Call_SetBulkMetadata ac metadata => SetBulkMetadata ac metadata h
  | Call_ToEvent ac => _ ←! ToEvent ac h; Done h
  | Call_AuditableCreate ctx resourceID newData => AuditableCreate ctx resourceID newData h
  | Call_AuditableUpdate ctx resourceID oldData newData =>
      AuditableUpdate ctx resourceID oldData newData h
  | Call_AuditableDelete ctx resourceID oldData => AuditableDelete ctx resourceID oldData h
  | Call_AuditableGet ctx resourceID => AuditableGet ctx resourceID h
  | Call_AuditableList ctx metadata => AuditableList ctx metadata h
  | Call_AuditablePage ctx pageData => AuditablePage ctx pageData h
  | Call_AuditableAction ctx resourceID metadata => AuditableAction ctx resourceID metadata h
  end.

Fixpoint run_calls (calls : list core_call) (h : heap) : outcome heap :=
  match calls with
  | [] => Done h
  | c :: rest => h' ←! run_call c h; run_calls rest h'
  end.

(** The accumulator a call acts on: the receiver of a method, the
    accumulator attached to the context for a decorator. *)
Definition target (c : core_call) : ptr :=
  match c with
  | Call_SetUserID ac _ | Call_SetResourceID ac _ | Call_SetOldData ac _
  | Call_SetNewData ac _ | Call_SetMetadata ac _ _ | Call_SetBulkMetadata ac _
  | Call_ToEvent ac => ac
  | Call_AuditableCreate ctx _ _ | Call_AuditableUpdate ctx _ _ _
  | Call_AuditableDelete ctx _ _ | Call_AuditableGet ctx _
  | Call_AuditableList ctx _ | Call_AuditablePage ctx _
  | Call_AuditableAction ctx _ _ => GetAuditContext ctx
  end.

Definition is_method (c : core_call) : bool :=
  match c with
  | Call_SetUserID _ _ | Call_SetResourceID _ _ | Call_SetOldData _ _
  | Call_SetNewData _ _ | Call_SetMetadata _ _ _ | Call_SetBulkMetadata _ _
  | Call_ToEvent _ => true
  | _ => false
  end.

(** A method is called on a live accumulator; a context has none attached
    or a live one. *)
Definition well_targeted (h : heap) (c : core_call) : Prop :=
  match target c with
  | Some l => is_Some (h !! l)
  | None => is_method c = false
  end.

(** The fields of the accumulator, to state which of them two states
    agree on. *)
Inductive field : Type :=
| FTraceID | FUserID | FAction | FResource | FResourceID | FOldData | FNewData
| FMetadata | FIPAddress | FUserAgent | FRequestURI | FMethod | FResponseCode
| FStartTime | FEndTime.

Definition same_field (f : field) (s s' : AuditableContext) : Prop :=
  match f with
  | FTraceID => TraceID s = TraceID s'
  | FUserID => UserID s = UserID s'
  | FAction => Action s = Action s'
  | FResource => Resource s = Resource s'
  | FResourceID => ResourceID s = ResourceID s'
  | FOldData => OldData s = OldData s'
  | FNewData => NewData s = NewData s'
  | FMetadata => Metadata s = Metadata s'
  | FIPAddress => IPAddress s = IPAddress s'
  | FUserAgent => UserAgent s = UserAgent s'
  | FRequestURI => RequestURI s = RequestURI s'
  | FMethod => Method s = Method s'
  | FResponseCode => ResponseCode s = ResponseCode s'
  | FStartTime => StartTime s = StartTime s'
  | FEndTime => EndTime s = EndTime s'
  end.

(** Two states agree on every field but one. *)
Definition only_changes (changed : field) (s s' : AuditableContext) : Prop :=
  ∀ f, f ≠ changed → same_field f s s'.

(** Every accumulator of [h] is still there in [h'], with the trace
    identifier it had. *)
Definition keeps_TraceID (h h' : heap) : Prop :=
  ∀ l s, h !! l = Some s → ∃ s', h' !! l = Some s' ∧ TraceID s' = TraceID s.

(** An option that returns normally on every live accumulator and keeps
    the trace identifiers. *)
Definition trace_safe (opt : ContextOption) : Prop :=
  ∀ l h, is_Some (h !! l) → ∃ h', opt (Some l) h = Done h' ∧ keeps_TraceID h h'.

End Calls.

(** ** Goroutines sharing one accumulator

    The bodies of [SetBulkMetadata] and [ToEvent] as statement sequences over
    the accumulator and its [sync.RWMutex], run by any number of goroutines
    under an arbitrary scheduler.  A statement that cannot run now (a lock
    that is taken, an assignment into a nil map) gives no next state.  Every
    access is made under the mutex, so the goroutines are free of data races
    and their steps interleave.  [sync.RWMutex] also holds back new readers
    while a writer waits: that removes schedules and adds none. *)

Section Goroutines.
Context `{Encoding}.

Inductive instr : Type :=
| ILock                              (* ac.mu.Lock() *)
| IUnlock                            (* the deferred ac.mu.Unlock() *)
| IRLock                             (* ac.mu.RLock() *)
| IRUnlock                           (* the deferred ac.mu.RUnlock() *)
| IMake                              (* if ac.Metadata == nil { ac.Metadata = make(...) } *)
| IAssign (k : string) (v : any)     (* ac.Metadata[k] = v *)
| ISnapshot.                         (* event := AuditEvent{...}, up to return event *)

Definition entries (metadata : gomap) : list (string * any) :=
  match metadata with
  | Some m => map_to_list m
  | None => []
  end.

(** The statements of [SetBulkMetadata] between Lock and Unlock. *)
Definition SetBulkMetadata_body (metadata : gomap) : list instr :=
  IMake :: map (λ kv, IAssign kv.1 kv.2) (entries metadata).

Definition SetBulkMetadata_code (metadata : gomap) : list instr :=
  ILock :: SetBulkMetadata_body metadata ++ [IUnlock].

Definition ToEvent_code : list instr := [IRLock; ISnapshot; IRUnlock].

(** The accumulator, its mutex (held by a writer, or by a number of
    readers), the program counter of every goroutine, and the events the
    calls of [ToEvent] have returned so far. *)
Record machine : Type := mkMachine {
  shared : AuditableContext;
  writer_held : bool;
  readers_held : nat;
  pcs : list nat;
  returned : list AuditEvent
}.

Definition exec (ins : instr) (st : machine) : option machine :=
  match ins with
  | ILock =>
      if writer_held st || negb (Nat.eqb (readers_held st) 0) then None
      else Some (mkMachine (shared st) true (readers_held st) (pcs st) (returned st))
  | IUnlock =>
      if writer_held st
      then Some (mkMachine (shared st) false (readers_held st) (pcs st) (returned st))
      else None
  | IRLock =>
      if writer_held st then None
      else Some (mkMachine (shared st) false (S (readers_held st)) (pcs st) (returned st))
  | IRUnlock =>
      match readers_held st with
      | S n => Some (mkMachine (shared st) (writer_held st) n (pcs st) (returned st))
      | O => None
      end
  | IMake =>
      Some (mkMachine (with_Metadata (Some (make_if_nil (Metadata (shared st)))) (shared st))
              (writer_held st) (readers_held st) (pcs st) (returned st))
  | IAssign k v =>
      match Metadata (shared st) with
      | Some m =>
          Some (mkMachine (with_Metadata (Some (<[k := v]> m)) (shared st))
                  (writer_held st) (readers_held st) (pcs st) (returned st))
      | None => None
      end
  | ISnapshot =>
      Some (mkMachine (shared st) (writer_held st) (readers_held st) (pcs st)
              (returned st ++ [to_event (shared st)]))
  end.

Definition advance (t : nat) (pc : nat) (st : machine) : machine :=
  mkMachine (shared st) (writer_held st) (readers_held st) (<[t := S pc]> (pcs st))
    (returned st).

(** Goroutine [t] of the pool runs its next statement. *)
Definition step (pool : list (list instr)) (t : nat) (st : machine) : option machine :=
  pc ← pcs st !! t;
  code ← pool !! t;
  ins ← code !! pc;
  st' ← exec ins st;
  Some (advance t pc st').

(** The scheduler picks a goroutine at each step. *)
Fixpoint run (pool : list (list instr)) (schedule : list nat) (st : machine) : option machine :=
  match schedule with
  | [] => Some st
  | t :: rest => st' ← step pool t st; run pool rest st'
  end.

Definition start (pool : list (list instr)) (s : AuditableContext) : machine :=
  mkMachine s false 0 (replicate (length pool) 0) [].


(** Two goroutines merging, and [n] goroutines converting. *)
Definition two_merges (m1 m2 : gomap) (n : nat) : list (list instr) :=
  SetBulkMetadata_code m1 :: SetBulkMetadata_code m2 :: replicate n ToEvent_code.

(** *** What the goroutines have done so far

    The notions the invariant of the pool [two_merges] is stated with. *)

(** What a statement does to the accumulator when it runs. *)
Definition data_effect (ins : instr) (s : AuditableContext) : AuditableContext :=
  match ins with
  | IMake => with_Metadata (Some (make_if_nil (Metadata s))) s
  | IAssign k v => with_Metadata (Some (<[k := v]> (make_if_nil (Metadata s)))) s
  | _ => s
  end.

Definition effects (code : list instr) (s : AuditableContext) : AuditableContext :=
  foldl (λ s ins, data_effect ins s) s code.

(** A goroutine merging [metadata] whose program counter is [pc] holds the
    write lock, and has brought the accumulator from [s] to
    [progress_of metadata pc s]. *)
Definition in_critical (metadata : gomap) (pc : nat) : Prop :=
  0 < pc < length (SetBulkMetadata_code metadata).

Definition progress_of (metadata : gomap) (pc : nat) (s : AuditableContext)
  : AuditableContext :=
  effects (take (pc - 1) (SetBulkMetadata_body metadata)) s.

(** A goroutine converting whose program counter is [pc] holds the read
    lock. *)
Definition reading (pc : nat) : Prop := pc = 1 ∨ pc = 2.

Definition count_reading (rs : list nat) : nat := length (filter reading rs).

(** The mapping after a whole merge of [metadata] into [target]. *)
Definition merge_of (metadata target : gomap) : gomap :=
  Some (default ∅ metadata ∪ make_if_nil target).

(** The mappings that reflect whole merges only: none, either, or both in
    either order. *)
Definition whole_merges (m1 m2 target : gomap) : list gomap :=
  [ target; merge_of m1 target; merge_of m2 target;
    merge_of m2 (merge_of m1 target); merge_of m1 (merge_of m2 target) ].

(** The invariant of two merging goroutines at [p] and [q], as far as the
    accumulator and the write lock go. *)
Definition merging (s0 : AuditableContext) (m1 m2 : gomap) (p q : nat) (st : machine) : Prop :=
  p ≤ length (SetBulkMetadata_code m1)
  ∧ q ≤ length (SetBulkMetadata_code m2)
  ∧ (writer_held st = true ↔ in_critical m1 p ∨ in_critical m2 q)
  ∧ ¬ (in_critical m1 p ∧ in_critical m2 q)
  ∧ (writer_held st = true → readers_held st = 0)
  ∧ ((¬ in_critical m2 q ∧ shared st = progress_of m1 p (progress_of m2 q s0))
     ∨ (¬ in_critical m1 p ∧ shared st = progress_of m2 q (progress_of m1 p s0))).

(** The invariant of the pool [two_merges m1 m2 n] started on [s0]. *)
Definition pool_invariant (s0 : AuditableContext) (m1 m2 : gomap) (n : nat) (st : machine)
  : Prop :=
  ∃ p q rs,
    pcs st = p :: q :: rs
    ∧ length rs = n
    ∧ Forall (λ pc, pc ≤ 3) rs
    ∧ merging s0 m1 m2 p q st
    ∧ readers_held st = count_reading rs
    ∧ Forall (λ ev, Event.Metadata ev ∈ whole_merges m1 m2 (Metadata s0)) (returned st).

End Goroutines.

(** ** A small instance of the parameters

    A universe with numbers, texts, flat records and channels, and a JSON
    encoder and decoder for it, used to run the definitions on concrete
    requests.  A channel is a value [encoding/json] rejects with an
    [UnsupportedTypeError]; an instant is written as a quoted number. *)

Module Sample.

Inductive sample_value : Type :=
| SNum (n : Z)
| SText (s : string)
| SObject (fields : list (string * Z))
| SChan.

Definition universe : Universe := {| value := sample_value |}.
#[local] Existing Instance universe.

Definition dquote : ascii := Ascii.ascii_of_nat 34.
Definition backslash : ascii := Ascii.ascii_of_nat 92.

Definition text (s : string) : bytes := String.list_byte_of_string s.

Fixpoint escape (s : string) : string :=
  match s with
  | EmptyString => EmptyString
  | String c rest =>
      if decide (c = dquote ∨ c = backslash)
      then String backslash (String c (escape rest))
      else String c (escape rest)
  end.

Definition quoted (s : string) : bytes :=
  text (String dquote (escape s +:+ String dquote EmptyString)).

Fixpoint members_text (members : list (string * bytes)) : bytes :=
  match members with
  | [] => []
  | [(k, v)] => quoted k ++ text ":" ++ v
  | (k, v) :: rest => quoted k ++ text ":" ++ v ++ text "," ++ members_text rest
  end.

Definition object_text (members : list (string * bytes)) : bytes :=
  text "{" ++ members_text members ++ text "}".

Definition encode_any (a : any) : result bytes :=
  match a with
  | None => Ok (text "null")
  | Some (SNum n) => Ok (text (pretty n))
  | Some (SText s) => Ok (quoted s)
  | Some (SObject fields) =>
      Ok (object_text (map (λ kn, (kn.1, text (pretty kn.2))) fields))
  | Some SChan => Err "json: unsupported type: chan int"
  end.

Fixpoint encode_entries (entries : list (string * any)) : result (list (string * bytes)) :=
  match entries with
  | [] => Ok []
  | (k, v) :: rest =>
      match encode_any v with
      | Err e => Err e
      | Ok b =>
          match encode_entries rest with
          | Err e => Err e
          | Ok members => Ok ((k, b) :: members)
          end
      end
  end.

(** Map keys are written in sorted order. *)
Definition sorted_entries (m : gmap string any) : list (string * any) :=
  merge_sort (λ a b, Is_true (String.leb a.1 b.1)) (map_to_list m).

Definition sample_encode (v : reflect_value) : result bytes :=
  match v with
  | RInterface a => encode_any a
  | RStringPtr None => Ok (text "null")
  | RStringPtr (Some s) => Ok (quoted s)
  | RMap None => Ok (text "null")
  | RMap (Some m) =>
      match encode_entries (sorted_entries m) with
      | Err e => Err e
      | Ok members => Ok (object_text members)
      end
  | RString s => Ok (quoted s)
  | RInt n => Ok (text (pretty n))
  | RBool b => Ok (text (if b then "true" else "false"))
  | RTime t => Ok (quoted (pretty t))
  | RRawMessage None => Ok (text "null")
  | RRawMessage (Some raw) => Ok raw
  end.

(** The decoder reads [null] and objects whose values are numbers. *)
Fixpoint scan_string (s : string) : option (string * string) :=
  match s with
  | EmptyString => None
  | String c rest =>
      if decide (c = dquote) then Some (EmptyString, rest)
      else if decide (c = backslash) then None
      else match scan_string rest with
           | Some (k, rest') => Some (String c k, rest')
           | None => None
           end
  end.

Definition digit_of (c : ascii) : option Z :=
  let n := Z.of_nat (Ascii.nat_of_ascii c) in
  if decide (48 ≤ n ≤ 57)%Z then Some (n - 48)%Z else None.

Fixpoint scan_digits (s : string) (acc : Z) (seen : bool) : option (Z * string) :=
  match s with
  | EmptyString => if seen then Some (acc, EmptyString) else None
  | String c rest =>
      match digit_of c with
      | Some d => scan_digits rest (10 * acc + d)%Z true
      | None => if seen then Some (acc, s) else None
      end
  end.

Definition scan_number (s : string) : option (Z * string) :=
  match s with
  | String c rest =>
      if decide (c = "-"%char)
      then match scan_digits rest 0 false with
           | Some (n, rest') => Some ((- n)%Z, rest')
           | None => None
           end
      else scan_digits s 0 false
  | EmptyString => None
  end.

Fixpoint scan_members (fuel : nat) (s : string) (acc : gmap string any)
  : option (gmap string any) :=
  match fuel, s with
  | S fuel, String c rest =>
      if decide (c = dquote)
      then match scan_string rest with
           | Some (k, String colon rest) =>
               if decide (colon = ":"%char)
               then match scan_number rest with
                    | Some (n, String sep rest) =>
                        let acc := <[k := Some (SNum n)]> acc in
                        if decide (sep = ","%char) then scan_members fuel rest acc
                        else if decide (sep = "}"%char ∧ rest = EmptyString) then Some acc
                        else None
                    | _ => None
                    end
               else None
           | _ => None
           end
      else None
  | _, _ => None
  end.

Definition sample_unmarshal_map (data : bytes) : result gomap :=
  let s := String.string_of_list_byte data in
  if decide (s = "null") then Ok None
  else if decide (s = "{}") then Ok (Some ∅)
  else match s with
       | String c rest =>
           if decide (c = "{"%char)
           then match scan_members (String.length rest) rest ∅ with
                | Some m => Ok (Some m)
                | None => Err "invalid character"
                end
           else Err "json: cannot unmarshal into Go value of type map[string]interface {}"
       | EmptyString => Err "unexpected end of JSON input"
       end.

Definition encoding : Encoding :=
  {| encode := sample_encode; json_Unmarshal_map := sample_unmarshal_map |}.
#[local] Existing Instance encoding.

(** A request [GET /users/42], before any middleware has run. *)
Definition echo0 : EchoContext :=
  {| request_Context := [];
     RealIP := "10.0.0.7";
     request_UserAgent := "curl/8.5";
     request_RequestURI := "/users/42";
     request_Method := "GET";
     response := Some (mkResponse 200%Z);
     store := ∅ |}.

(** The accumulator [Root] allocates for it, untouched. *)
Definition fresh_accumulator : AuditableContext :=
  new_AuditableContext (Some (SText "trace-1")) echo0 1000%Z.

(** The same after a handler recorded an update whose old value cannot be
    encoded, and the response turned out 404. *)
Definition busy_accumulator : AuditableContext :=
  {| TraceID := Some (SText "trace-2");
     UserID := Some (SNum 7);
     Action := Some "UPDATE";
     Resource := Some "User";
     ResourceID := Some (SNum 42);
     OldData := Some SChan;
     NewData := Some (SObject [("v", 2%Z)]);
     Metadata := Some {[ "count" := Some (SNum 3) ]};
     IPAddress := "10.0.0.7";
     UserAgent := "curl/8.5";
     RequestURI := "/users/42";
     Method := "PUT";
     ResponseCode := 404%Z;
     StartTime := 1000%Z;
     EndTime := 1010%Z |}.

Definition heap0 : heap := {[ 1%positive := fresh_accumulator; 2%positive := busy_accumulator ]}.

(** A handler that takes five time units and returns nil, behind the
    per-route middleware of [For]. *)
Definition slow_handler : HandlerFunc :=
  λ w, Done (None, mkWorld (wheap w) (wecho w) (wclock w + 5)%Z (wspawned w)).

Definition config0 : Config :=
  {| Auditor := Some 0;
     NewTraceID := Some (λ w, (Some (SText "trace-3"), w));
     UserFromContext := Some (λ _, Some (SNum 7));
     Skipper := None |}.

Definition world0 : World :=
  {| wheap := heap0; wecho := echo0; wclock := 2000%Z; wspawned := [] |}.

(** A context with accumulator 1 attached, and one where the key holds a
    value of another type. *)
Definition attached_ctx : Context := WithValue [] AuditableCtxKey (AuditPointer (Some 1%positive)).
Definition foreign_ctx : Context :=
  WithValue [] AuditableCtxKey (ForeignValue (Some (SText "not an accumulator"))).

(** Setters and decorators on accumulators 1 and 2, a conversion and a
    decorator on a context without accumulator. *)
Definition busy_calls : list core_call :=
  [ Call_SetUserID (Some 1%positive) (Some (SNum 7));
    Call_AuditableUpdate attached_ctx (Some (SNum 42)) (Some SChan) (Some (SText "new"));
    Call_SetBulkMetadata (Some 2%positive) (Some {[ "a" := Some (SNum 1) ]});
    Call_ToEvent (Some 2%positive);
    Call_AuditablePage attached_ctx (Some (SObject [("page", 2%Z)]));
    Call_AuditableAction foreign_ctx (Some (SNum 1)) None;
    Call_SetMetadata (Some 1%positive) "k" None ].

(** Two goroutines merging one entry each and one goroutine converting.
    In the schedule the second goroutine merges first, the conversion runs
    in between, then the first goroutine merges. *)
Definition pool_ab : list (list instr) :=
  two_merges (Some {[ "a" := Some (SNum 1) ]}) (Some {[ "b" := Some (SNum 2) ]}) 1.

Definition b_then_a : list nat := [1; 1; 1; 1; 2; 2; 2; 0; 0; 0; 0].

Definition after_b_then_a : machine :=
  Eval vm_compute in
    default (start pool_ab fresh_accumulator) (run pool_ab b_then_a (start pool_ab fresh_accumulator)).

End Sample.

(** ** Further notions

    Used to state what the decorators, the serialized event and the route
    middleware do beyond the properties of the first part. *)

Section FurtherNotions.
Context `{Encoding}.

(** Two states agree on every field outside a list of fields. *)
Definition only_changes_in (changed : list field) (s s' : AuditableContext) : Prop :=
  ∀ f, f ∉ changed → same_field f s s'.

(** The keys of the serialized event, in the order of the struct. *)
Definition AuditEvent_keys : list string :=
  [ "traceId"; "userId"; "action"; "resource"; "resourceId"; "metadata"; "ipAddress";
    "userAgent"; "requestUri"; "method"; "responseCode"; "success"; "startTime";
    "endTime"; "oldData"; "newData" ].

(** What [For] does to [UserID]: the configured extractor overrides it
    when it returns a user. *)
Definition user_after_For (em : EchoMw) (ctx : Context) (before : any) : any :=
  match UserFromContext (cfg em) with
  | Some userFromContext =>
      match userFromContext ctx with
      | Some u => Some u
      | None => before
      end
  | None => before
  end.

(** The accumulator once [For] has run on it. *)
Definition routed (em : EchoMw) (ctx : Context) (resource : EntityType) (action : ActionType)
    (s : AuditableContext) : AuditableContext :=
  with_UserID (user_after_For em ctx (UserID s))
    (with_Action (Some action) (with_Resource (Some resource) s)).

(** A handler that returns, and leaves every accumulator in place with the
    resource and action it had. *)
Definition keeps_route (handler : HandlerFunc) : Prop :=
  ∀ w, ∃ err w1,
    handler w = Done (err, w1)
    ∧ ∀ l s, wheap w !! l = Some s →
        ∃ s1, wheap w1 !! l = Some s1 ∧ Resource s1 = Resource s ∧ Action s1 = Action s.

End FurtherNotions.

(** ** Further sample data *)

Module MoreSamples.
Import Sample.
#[local] Existing Instance Sample.universe.
#[local] Existing Instance Sample.encoding.

(** A map of two entries, and its entries in two orders. *)
Definition xy : gmap string any := {[ "x" := Some (SNum 1); "y" := Some (SNum 2) ]}.
Definition x_then_y : list (string * any) := [("x", Some (SNum 1)); ("y", Some (SNum 2))].
Definition y_then_x : list (string * any) := [("y", Some (SNum 2)); ("x", Some (SNum 1))].

(** An accumulator whose trace identifier is a channel. *)
Definition untraceable : AuditableContext :=
  new_AuditableContext (Some SChan) echo0 1000%Z.

(** The world of a request once accumulator 1 is attached to it. *)
Definition attached_world : World :=
  set_echo (SetEchoAuditContext (Some 1%positive) (wecho world0)) world0.

End MoreSamples.

(** * Properties *)

(** ** Snapshot conversion *)

Section Conversion.
Context `{Encoding}.

Lemma ToEvent_live (h : heap) (l : loc) (s : AuditableContext) :
  h !! l = Some s → ToEvent (Some l) h = Done (to_event s).
Proof. intros Hl. unfold ToEvent, load. by rewrite Hl. Qed.

Lemma ToEvent_nil (h : heap) : ∃ msg, ToEvent None h = Panic msg.
Proof. by eexists. Qed.

Lemma marshal_if_set_nil : marshal_if_set None = None.
Proof. done. Qed.

Lemma marshal_if_set_error (x : any) (e : string) :
  json_Marshal x = Err e → marshal_if_set x = None.
Proof. intros He. destruct x; simpl; by rewrite ?He. Qed.

Lemma marshal_if_set_ok (v : value) (data : bytes) :
  json_Marshal (Some v) = Ok data → marshal_if_set (Some v) = Some data.
Proof. intros Hd. simpl. by rewrite Hd. Qed.

(** C2. The event returned by ToEvent has Success = true if and only if
    200 <= ResponseCode < 400; Success is false for the codes 0, 199, 400
    and 500, and for an accumulator whose ResponseCode was never set, which
    is how Root creates it (the zero value 0). *)
Theorem ToEvent_Success (h : heap) (l : loc) (s : AuditableContext) :
  h !! l = Some s →
  ∃ ev, ToEvent (Some l) h = Done ev
    ∧ (Event.Success ev = true ↔ (200 ≤ ResponseCode s < 400)%Z)
    ∧ (ResponseCode s ∈ [0; 199; 400; 500]%Z → Event.Success ev = false)
    ∧ (∀ traceID c now, s = new_AuditableContext traceID c now →
         Event.Success ev = false).
Proof.
  intros Hl. exists (to_event s). split; [by apply ToEvent_live|].
  assert (Hiff : Event.Success (to_event s) = true ↔ (200 ≤ ResponseCode s < 400)%Z).
  { simpl. rewrite andb_true_iff, Z.leb_le, Z.ltb_lt. done. }
  split; [exact Hiff|]. split.
  - intros Hin. apply not_true_is_false. rewrite Hiff.
    set_unfold in Hin. lia.
  - intros traceID c now ->. reflexivity.
Qed.

(** C3. ToEvent returns an event for every accumulator state and has no
    error result.  A snapshot that was never set gives an absent field; a
    snapshot whose serialization fails gives an absent field too; every
    other field of the event is the accumulator's, whatever the
    serialization did. *)
Theorem ToEvent_total (h : heap) (l : loc) (s : AuditableContext) :
  h !! l = Some s →
  ∃ ev, ToEvent (Some l) h = Done ev
    ∧ (OldData s = None → Event.OldData ev = None)
    ∧ (NewData s = None → Event.NewData ev = None)
    ∧ (∀ e, json_Marshal (OldData s) = Err e → Event.OldData ev = None)
    ∧ (∀ e, json_Marshal (NewData s) = Err e → Event.NewData ev = None)
    ∧ Event.TraceID ev = TraceID s
    ∧ Event.UserID ev = UserID s
    ∧ Event.Action ev = Action s
    ∧ Event.Resource ev = Resource s
    ∧ Event.ResourceID ev = ResourceID s
    ∧ Event.Metadata ev = Metadata s
    ∧ Event.IPAddress ev = IPAddress s
    ∧ Event.UserAgent ev = UserAgent s
    ∧ Event.RequestURI ev = RequestURI s
    ∧ Event.Method ev = Method s
    ∧ Event.ResponseCode ev = ResponseCode s
    ∧ Event.StartTime ev = StartTime s
    ∧ Event.EndTime ev = EndTime s
    ∧ Event.Success ev = ((200 <=? ResponseCode s)%Z && (ResponseCode s <? 400)%Z).
Proof.
  intros Hl. exists (to_event s). split; [by apply ToEvent_live|].
  repeat split; simpl.
  - intros ->. apply marshal_if_set_nil.
  - intros ->. apply marshal_if_set_nil.
  - intros e. apply marshal_if_set_error.
  - intros e. apply marshal_if_set_error.
Qed.

End Conversion.

Section ConversionWitnesses.
Import Sample.
#[local] Existing Instance Sample.universe.
#[local] Existing Instance Sample.encoding.

Lemma ToEvent_Success_witness :
  ∃ ev, ToEvent (Some 1%positive) heap0 = Done ev ∧ Event.Success ev = false.
Proof.
  destruct (ToEvent_Success heap0 1%positive fresh_accumulator eq_refl)
    as (ev & Hev & _ & Hcases & _).
  exists ev. split; [exact Hev|]. apply Hcases. apply list_elem_of_here.
Defined.

(** Accumulator 2 has an OldData that the encoder rejects and a NewData it
    accepts. *)
Lemma ToEvent_total_witness :
  ∃ ev, ToEvent (Some 2%positive) heap0 = Done ev
    ∧ Event.OldData ev = None
    ∧ Event.TraceID ev = Some (SText "trace-2")
    ∧ Event.ResponseCode ev = 404%Z.
Proof.
  destruct (ToEvent_total heap0 2%positive busy_accumulator eq_refl)
    as (ev & Hev & _ & _ & Hold & _ & Htrace & _ & _ & _ & _ & _ & _ & _ & _ & _ & Hcode & _).
  exists ev. split; [exact Hev|]. split; [|split; [exact Htrace|exact Hcode]].
  apply (Hold "json: unsupported type: chan int"). reflexivity.
Defined.

End ConversionWitnesses.

(** ** The serialized event *)

Section Serialization.
Context `{Encoding}.

Lemma encode_fields_has_key (fields : list struct_field) (members : list (string * bytes))
    (k : string) :
  encode_fields fields = Ok members →
  has_key k members ↔ ∃ f, f ∈ fields ∧ json_key f = k ∧ written f.
Proof.
  unfold has_key, written. revert members.
  induction fields as [|f fields IH]; intros members Henc; simpl in Henc.
  - injection Henc as <-. split.
    + intros Hin. by apply elem_of_nil in Hin.
    + intros (f & Hin & _). by apply elem_of_nil in Hin.
  - destruct (omitempty f && isEmptyValue (field_value f)) eqn:Hskip.
    + rewrite (IH _ Henc). split.
      * intros (f' & Hin & Hk & Hw). exists f'. split; [by right|done].
      * intros (f' & Hin & Hk & Hw). apply elem_of_cons in Hin as [->|Hin].
        -- congruence.
        -- by exists f'.
    + destruct (encode (field_value f)) as [text|]; [|done].
      destruct (encode_fields fields) as [rest|]; [|done].
      injection Henc as <-. rewrite fmap_cons, elem_of_cons. simpl.
      rewrite (IH rest eq_refl). split.
      * intros [->|(f' & Hin & Hk & Hw)].
        -- exists f. split; [by left|done].
        -- exists f'. split; [by right|done].
      * intros (f' & Hin & Hk & Hw). apply elem_of_cons in Hin as [->|Hin].
        -- by left.
        -- right. by exists f'.
Qed.

(** The members of a serialized event, key by key. *)
Lemma Marshal_AuditEvent_has_key (e : AuditEvent) (members : list (string * bytes))
    (k : string) :
  Marshal_AuditEvent e = Ok members →
  has_key k members ↔ ∃ f, f ∈ AuditEvent_fields e ∧ json_key f = k ∧ written f.
Proof. apply encode_fields_has_key. Qed.

Ltac field_cases Hin :=
  unfold AuditEvent_fields in Hin;
  repeat (apply elem_of_cons in Hin as [->|Hin]);
  [..|by apply elem_of_nil in Hin].

Lemma has_key_always (e : AuditEvent) (members : list (string * bytes)) :
  Marshal_AuditEvent e = Ok members →
  has_key "traceId" members ∧ has_key "startTime" members ∧ has_key "endTime" members.
Proof.
  intros Henc. rewrite !(Marshal_AuditEvent_has_key e members _ Henc).
  split; [|split].
  - exists (mkField "traceId" false (RInterface (Event.TraceID e))).
    split; [unfold AuditEvent_fields; set_solver|done].
  - exists (mkField "startTime" false (RTime (Event.StartTime e))).
    split; [unfold AuditEvent_fields; set_solver|done].
  - exists (mkField "endTime" false (RTime (Event.EndTime e))).
    split; [unfold AuditEvent_fields; set_solver|done].
Qed.

Lemma has_key_success (e : AuditEvent) (members : list (string * bytes)) :
  Marshal_AuditEvent e = Ok members →
  has_key "success" members ↔ Event.Success e = true.
Proof.
  intros Henc. rewrite (Marshal_AuditEvent_has_key e members _ Henc). split.
  - intros (f & Hin & Hk & Hw). field_cases Hin; try discriminate Hk.
    unfold written in Hw. simpl in Hw. by destruct (Event.Success e).
  - intros Hs. exists (mkField "success" true (RBool (Event.Success e))).
    split; [unfold AuditEvent_fields; set_solver|].
    split; [done|]. unfold written. simpl. by rewrite Hs.
Qed.

(** C1, as the code has it.  Whenever the event produced by ToEvent
    serializes, the object has the keys traceId, startTime and endTime; the
    key success is present exactly when the derived success value is true,
    that is when 200 <= ResponseCode < 400, and is omitted when it is
    false. *)
Theorem serialized_event_keys (h : heap) (l : loc) (s : AuditableContext) :
  h !! l = Some s →
  ∃ ev, ToEvent (Some l) h = Done ev
    ∧ ∀ members, Marshal_AuditEvent ev = Ok members →
        has_key "traceId" members
        ∧ has_key "startTime" members
        ∧ has_key "endTime" members
        ∧ (has_key "success" members ↔ (200 ≤ ResponseCode s < 400)%Z).
Proof.
  intros Hl. exists (to_event s). split; [by apply ToEvent_live|].
  intros members Henc.
  destruct (has_key_always _ _ Henc) as (Ht & Hs & He).
  repeat (split; [done|]).
  rewrite (has_key_success _ _ Henc). simpl.
  rewrite andb_true_iff, Z.leb_le, Z.ltb_lt. done.
Qed.

(** C4. An accumulator on which userID, action, resourceKind, metadata,
    oldData and newData were never set (the metadata map nil, or empty as
    Root makes it) serializes without the keys userId, action, resource,
    metadata, oldData and newData. *)
Theorem unset_fields_omitted (h : heap) (l : loc) (s : AuditableContext) :
  h !! l = Some s →
  UserID s = None → Action s = None → Resource s = None →
  Metadata s = None ∨ Metadata s = Some ∅ →
  OldData s = None → NewData s = None →
  ∃ ev, ToEvent (Some l) h = Done ev
    ∧ ∀ members, Marshal_AuditEvent ev = Ok members →
        ∀ k, k ∈ ["userId"; "action"; "resource"; "metadata"; "oldData"; "newData"] →
          ¬ has_key k members.
Proof.
  intros Hl Huser Haction Hresource Hmeta Hold Hnew.
  exists (to_event s). split; [by apply ToEvent_live|].
  intros members Henc k Hk.
  rewrite (Marshal_AuditEvent_has_key _ members _ Henc).
  intros (f & Hin & Hkey & Hw). unfold written in Hw.
  field_cases Hin; simpl in Hkey, Hw; subst k;
    try (by set_unfold in Hk; intuition discriminate).
  - by rewrite Huser in Hw.
  - by rewrite Haction in Hw.
  - by rewrite Hresource in Hw.
  - by destruct Hmeta as [Hm|Hm]; rewrite Hm in Hw.
  - by rewrite Hold in Hw.
  - by rewrite Hnew in Hw.
Qed.

End Serialization.

Section SerializationWitnesses.
Import Sample.
#[local] Existing Instance Sample.universe.
#[local] Existing Instance Sample.encoding.

Ltac no_such_key :=
  let Hin := fresh in
  unfold has_key; intros Hin; apply list_elem_of_In in Hin; simpl in Hin;
  intuition discriminate.

(** The accumulator Root has just created (ResponseCode 0) serializes to an
    object without the key success: C1 does not hold as stated. *)
Lemma success_key_omitted :
  ∃ ev members,
    ToEvent (Some 1%positive) heap0 = Done ev
    ∧ Marshal_AuditEvent ev = Ok members
    ∧ Event.Success ev = false
    ∧ ¬ has_key "success" members.
Proof.
  eexists _, _. split; [reflexivity|]. split; [vm_compute; reflexivity|].
  split; [reflexivity|]. no_such_key.
Qed.

(** A failed request: the event serializes, with traceId, startTime and
    endTime and without success. *)
Lemma serialized_event_keys_witness :
  ∃ ev members,
    ToEvent (Some 2%positive) heap0 = Done ev
    ∧ Marshal_AuditEvent ev = Ok members
    ∧ has_key "traceId" members
    ∧ has_key "startTime" members
    ∧ has_key "endTime" members
    ∧ (has_key "success" members ↔ (200 ≤ 404 < 400)%Z).
Proof.
  destruct (serialized_event_keys heap0 2%positive busy_accumulator eq_refl)
    as (ev & Hev & Hkeys).
  injection Hev as <-.
  eexists _, _. split; [reflexivity|]. split; [vm_compute; reflexivity|].
  apply Hkeys. vm_compute; reflexivity.
Defined.

Lemma unset_fields_omitted_witness :
  ∃ ev members,
    ToEvent (Some 1%positive) heap0 = Done ev
    ∧ Marshal_AuditEvent ev = Ok members
    ∧ ∀ k, k ∈ ["userId"; "action"; "resource"; "metadata"; "oldData"; "newData"] →
        ¬ has_key k members.
Proof.
  destruct (unset_fields_omitted heap0 1%positive fresh_accumulator eq_refl eq_refl eq_refl
              eq_refl (or_intror eq_refl) eq_refl eq_refl) as (ev & Hev & Hkeys).
  injection Hev as <-.
  eexists _, _. split; [reflexivity|]. split; [vm_compute; reflexivity|].
  apply Hkeys. vm_compute; reflexivity.
Defined.

End SerializationWitnesses.

(** ** Setters, options and decorators *)

Section Decorators.
Context `{Encoding}.

Lemma modify_live (h : heap) (l : loc) (s : AuditableContext)
    (f : AuditableContext → AuditableContext) :
  h !! l = Some s → modify (Some l) f h = Done (<[l := f s]> h).
Proof. intros Hl. unfold modify. by rewrite Hl. Qed.

(** The loop of [SetBulkMetadata] computes the union that prefers the
    entries merged in. *)
Lemma foldl_assign (l : list (string * any)) (target : gmap string any) :
  foldl (λ acc kv, <[kv.1 := kv.2]> acc) target l = list_to_map (reverse l) ∪ target.
Proof.
  revert target. induction l as [|[k v] l IH]; intros target; simpl.
  - by rewrite (left_id_L ∅ (∪)).
  - rewrite IH, reverse_cons, list_to_map_app. simpl.
    rewrite insert_empty, <-(assoc_L (∪)). by rewrite <-insert_union_singleton_l.
Qed.

Lemma range_assign_union (m target : gmap string any) :
  range_assign (Some m) target = m ∪ target.
Proof.
  unfold range_assign. rewrite foldl_assign. f_equal.
  rewrite <-(list_to_map_to_list m) at 2.
  apply list_to_map_proper.
  - rewrite fmap_reverse, reverse_Permutation. apply NoDup_fst_map_to_list.
  - apply reverse_Permutation.
Qed.

Lemma set_bulk_metadata_Metadata (metadata : gomap) (s : AuditableContext) :
  Metadata (set_bulk_metadata metadata s)
  = Some (default ∅ metadata ∪ make_if_nil (Metadata s)).
Proof.
  unfold set_bulk_metadata, with_Metadata. cbn [Metadata].
  destruct metadata as [m|].
  - by rewrite range_assign_union.
  - simpl. by rewrite (left_id_L ∅ (∪)).
Qed.

Lemma SetContext_attached (ctx : Context) (l : loc) (opts : list ContextOption) (h : heap) :
  GetAuditContext ctx = Some l → SetContext ctx opts h = apply_options (Some l) opts h.
Proof. intros Hctx. unfold SetContext. by rewrite Hctx. Qed.

Lemma SetContext_detached (ctx : Context) (opts : list ContextOption) (h : heap) :
  GetAuditContext ctx = None → SetContext ctx opts h = Done h.
Proof. intros Hctx. unfold SetContext. by rewrite Hctx. Qed.


(** C7. On a context with no accumulator attached, SetContext with any
    options and each of the seven decorators returns normally and leaves
    the heap as it was. *)
Theorem detached_context_noop (ctx : Context) (h : heap) :
  GetAuditContext ctx = None →
  (∀ opts, SetContext ctx opts h = Done h)
  ∧ (∀ resourceID newData, AuditableCreate ctx resourceID newData h = Done h)
  ∧ (∀ resourceID oldData newData,
       AuditableUpdate ctx resourceID oldData newData h = Done h)
  ∧ (∀ resourceID oldData, AuditableDelete ctx resourceID oldData h = Done h)
  ∧ (∀ resourceID, AuditableGet ctx resourceID h = Done h)
  ∧ (∀ metadata, AuditableList ctx metadata h = Done h)
  ∧ (∀ pageData, AuditablePage ctx pageData h = Done h)
  ∧ (∀ resourceID metadata, AuditableAction ctx resourceID metadata h = Done h).
Proof.
  intros Hctx.
  assert (Hset : ∀ opts, SetContext ctx opts h = Done h)
    by (intros opts; by apply SetContext_detached).
  split; [exact Hset|].
  repeat split; intros.
  - apply Hset.
  - apply Hset.
  - apply Hset.
  - apply Hset.
  - unfold AuditableList. destruct metadata; [apply Hset|done].
  - unfold AuditablePage. destruct (json_Marshal pageData); [|done].
    destruct (json_Unmarshal_map a); [apply Hset|done].
  - apply Hset.
Qed.

(** *** The trace identifier *)

Lemma keeps_TraceID_refl (h : heap) : keeps_TraceID h h.
Proof. intros l s Hl. by exists s. Qed.

Lemma keeps_TraceID_trans (h1 h2 h3 : heap) :
  keeps_TraceID h1 h2 → keeps_TraceID h2 h3 → keeps_TraceID h1 h3.
Proof.
  intros H12 H23 l s Hl.
  destruct (H12 l s Hl) as (s2 & Hl2 & Ht2).
  destruct (H23 l s2 Hl2) as (s3 & Hl3 & Ht3).
  exists s3. split; [done|congruence].
Qed.

Lemma keeps_TraceID_insert (h : heap) (l : loc) (s s' : AuditableContext) :
  h !! l = Some s → TraceID s' = TraceID s → keeps_TraceID h (<[l := s']> h).
Proof.
  intros Hl Ht l0 s0 Hl0. destruct (decide (l = l0)) as [<-|Hne].
  - exists s'. rewrite lookup_insert_eq. split; [done|congruence].
  - exists s0. by rewrite lookup_insert_ne.
Qed.

Lemma keeps_TraceID_live (h h' : heap) (l : loc) :
  keeps_TraceID h h' → is_Some (h !! l) → is_Some (h' !! l).
Proof. intros Hk [s Hl]. destruct (Hk l s Hl) as (s' & Hl' & _). by exists s'. Qed.

Lemma modify_trace_safe (f : AuditableContext → AuditableContext) :
  (∀ s, TraceID (f s) = TraceID s) → trace_safe (λ ac, modify ac f).
Proof.
  intros Hf l h [s Hl]. exists (<[l := f s]> h). split.
  - by apply modify_live.
  - by apply (keeps_TraceID_insert h l s).
Qed.

Lemma With_trace_safe :
  (∀ userID, trace_safe (WithUserID userID))
  ∧ (∀ resourceID, trace_safe (WithResourceID resourceID))
  ∧ (∀ data, trace_safe (WithOldData data))
  ∧ (∀ data, trace_safe (WithNewData data))
  ∧ (∀ key v, trace_safe (WithMetadata key v))
  ∧ (∀ metadata, trace_safe (WithBulkMetadata metadata)).
Proof. repeat split; intros; by apply modify_trace_safe. Qed.

Lemma apply_options_trace_safe (opts : list ContextOption) (l : loc) (h : heap) :
  Forall trace_safe opts → is_Some (h !! l) →
  ∃ h', apply_options (Some l) opts h = Done h' ∧ keeps_TraceID h h'.
Proof.
  intros Hopts. revert h. induction Hopts as [|opt opts Hopt _ IH]; intros h Hl; simpl.
  - exists h. split; [done|apply keeps_TraceID_refl].
  - destruct (Hopt l h Hl) as (h1 & -> & Hk1). simpl.
    destruct (IH h1) as (h2 & -> & Hk2); [by eapply keeps_TraceID_live|].
    exists h2. split; [done|by eapply keeps_TraceID_trans].
Qed.

Lemma SetContext_trace_safe (ctx : Context) (opts : list ContextOption) (h : heap) :
  Forall trace_safe opts →
  (∀ l, GetAuditContext ctx = Some l → is_Some (h !! l)) →
  ∃ h', SetContext ctx opts h = Done h' ∧ keeps_TraceID h h'.
Proof.
  intros Hopts Hlive. unfold SetContext.
  destruct (GetAuditContext ctx) as [l|].
  - apply apply_options_trace_safe; [done|by apply Hlive].
  - exists h. split; [done|apply keeps_TraceID_refl].
Qed.

Lemma run_call_keeps_TraceID (c : core_call) (h : heap) :
  well_targeted h c → ∃ h', run_call c h = Done h' ∧ keeps_TraceID h h'.
Proof.
  destruct With_trace_safe as (Huser & Hid & Hold & Hnew & Hkey & Hbulk).
  unfold well_targeted.
  destruct c; simpl;
    try (destruct ac as [l|]; [intros Hl|done]).
  - by apply (Huser userID).
  - by apply (Hid resourceID).
  - by apply (Hold data).
  - by apply (Hnew data).
  - by apply (Hkey key v).
  - by apply (Hbulk metadata).
  - destruct Hl as [s Hl]. rewrite (ToEvent_live _ _ _ Hl). simpl.
    exists h. split; [done|apply keeps_TraceID_refl].
  - intros Hl. apply SetContext_trace_safe.
    + repeat constructor; [apply Hid|apply Hnew].
    + intros l Hctx. by rewrite Hctx in Hl.
  - intros Hl. apply SetContext_trace_safe.
    + repeat constructor; [apply Hid|apply Hold|apply Hnew].
    + intros l Hctx. by rewrite Hctx in Hl.
  - intros Hl. apply SetContext_trace_safe.
    + repeat constructor; [apply Hid|apply Hold].
    + intros l Hctx. by rewrite Hctx in Hl.
  - intros Hl. apply SetContext_trace_safe.
    + repeat constructor. apply Hid.
    + intros l Hctx. by rewrite Hctx in Hl.
  - intros Hl. unfold AuditableList. destruct metadata as [m|].
    + apply SetContext_trace_safe.
      * repeat constructor. apply Hbulk.
      * intros l Hctx. by rewrite Hctx in Hl.
    + exists h. split; [done|apply keeps_TraceID_refl].
  - intros Hl. unfold AuditablePage.
    destruct (json_Marshal pageData) as [data|];
      [|exists h; split; [done|apply keeps_TraceID_refl]].
    destruct (json_Unmarshal_map data) as [metadata|];
      [|exists h; split; [done|apply keeps_TraceID_refl]].
    apply SetContext_trace_safe.
    + repeat constructor. apply Hbulk.
    + intros l Hctx. by rewrite Hctx in Hl.
  - intros Hl. unfold AuditableAction. apply SetContext_trace_safe.
    + destruct metadata; repeat constructor; first [apply Hid|apply Hbulk].
    + intros l Hctx. by rewrite Hctx in Hl.
Qed.

Lemma well_targeted_later (h h' : heap) (c : core_call) :
  keeps_TraceID h h' → well_targeted h c → well_targeted h' c.
Proof.
  unfold well_targeted. intros Hk. destruct (target c); [|done].
  by apply keeps_TraceID_live.
Qed.

Lemma run_calls_keep_TraceID (calls : list core_call) (h : heap) :
  Forall (well_targeted h) calls →
  ∃ h', run_calls calls h = Done h' ∧ keeps_TraceID h h'.
Proof.
  revert h. induction calls as [|c calls IH]; intros h Hall; simpl.
  - exists h. split; [done|apply keeps_TraceID_refl].
  - apply Forall_cons in Hall as [Hc Hall].
    destruct (run_call_keeps_TraceID c h Hc) as (h1 & -> & Hk1). simpl.
    destruct (IH h1) as (h2 & -> & Hk2).
    { eapply Forall_impl; [exact Hall|]. intros c'. by apply well_targeted_later. }
    exists h2. split; [done|by eapply keeps_TraceID_trans].
Qed.

(** C8. No call of the mutation API changes TraceID.  Any sequence of calls
    to the six setters, ToEvent and the seven decorators, each on a live
    accumulator (or, for a decorator, on a context with none attached),
    runs to completion and leaves every accumulator with the TraceID it
    had; and each setter changes its own field of its own accumulator and
    nothing else. *)
Theorem TraceID_immutable :
  (∀ calls h, Forall (well_targeted h) calls →
     ∃ h', run_calls calls h = Done h'
       ∧ ∀ l s, h !! l = Some s → ∃ s', h' !! l = Some s' ∧ TraceID s' = TraceID s)
  ∧ (∀ h l s, h !! l = Some s →
       (∀ userID, ∃ s', SetUserID (Some l) userID h = Done (<[l := s']> h)
          ∧ UserID s' = userID ∧ only_changes FUserID s s')
       ∧ (∀ resourceID, ∃ s', SetResourceID (Some l) resourceID h = Done (<[l := s']> h)
            ∧ ResourceID s' = resourceID ∧ only_changes FResourceID s s')
       ∧ (∀ data, ∃ s', SetOldData (Some l) data h = Done (<[l := s']> h)
            ∧ OldData s' = data ∧ only_changes FOldData s s')
       ∧ (∀ data, ∃ s', SetNewData (Some l) data h = Done (<[l := s']> h)
            ∧ NewData s' = data ∧ only_changes FNewData s s')
       ∧ (∀ key v, ∃ s', SetMetadata (Some l) key v h = Done (<[l := s']> h)
            ∧ Metadata s' = Some (<[key := v]> (make_if_nil (Metadata s)))
            ∧ only_changes FMetadata s s')
       ∧ (∀ metadata, ∃ s', SetBulkMetadata (Some l) metadata h = Done (<[l := s']> h)
            ∧ Metadata s' = Some (default ∅ metadata ∪ make_if_nil (Metadata s))
            ∧ only_changes FMetadata s s')).
Proof.
  split; [exact run_calls_keep_TraceID|].
  intros h l s Hl.
  repeat split; intros.
  - exists (with_UserID userID s).
    split; [by apply modify_live|]. split; [done|]. intros f Hf. by destruct f.
  - exists (with_ResourceID resourceID s).
    split; [by apply modify_live|]. split; [done|]. intros f Hf. by destruct f.
  - exists (with_OldData data s).
    split; [by apply modify_live|]. split; [done|]. intros f Hf. by destruct f.
  - exists (with_NewData data s).
    split; [by apply modify_live|]. split; [done|]. intros f Hf. by destruct f.
  - exists (set_metadata key v s).
    split; [by apply modify_live|]. split; [done|]. intros f Hf. by destruct f.
  - exists (set_bulk_metadata metadata s).
    split; [by apply modify_live|].
    split; [apply set_bulk_metadata_Metadata|]. intros f Hf. by destruct f.
Qed.

End Decorators.

Section DecoratorWitnesses.
Import Sample.
#[local] Existing Instance Sample.universe.
#[local] Existing Instance Sample.encoding.


(** Even an option that would panic is not run. *)
Lemma detached_context_noop_witness :
  SetContext foreign_ctx [λ _ _, Panic "unreachable"] heap0 = Done heap0
  ∧ AuditableCreate foreign_ctx (Some (SNum 42)) (Some (SObject [("v", 1%Z)])) heap0
    = Done heap0
  ∧ AuditablePage foreign_ctx (Some (SObject [("page", 2%Z)])) heap0 = Done heap0.
Proof.
  destruct (detached_context_noop foreign_ctx heap0 eq_refl)
    as (Hset & Hcreate & _ & _ & _ & _ & Hpage & _).
  split; [apply Hset|]. split; [apply Hcreate|apply Hpage].
Defined.

Lemma TraceID_immutable_witness :
  ∃ h', run_calls busy_calls heap0 = Done h'
    ∧ (∃ s', h' !! 1%positive = Some s' ∧ TraceID s' = Some (SText "trace-1"))
    ∧ (∃ s', h' !! 2%positive = Some s' ∧ TraceID s' = Some (SText "trace-2")).
Proof.
  destruct TraceID_immutable as [Hcalls _].
  destruct (Hcalls busy_calls heap0) as (h' & Hrun & Hkeep).
  { repeat constructor; vm_compute; eauto. }
  exists h'. split; [exact Hrun|]. split.
  - apply (Hkeep 1%positive fresh_accumulator). reflexivity.
  - apply (Hkeep 2%positive busy_accumulator). reflexivity.
Defined.

End DecoratorWitnesses.

(** ** The Echo middleware *)

Section Middleware.
Context `{Encoding}.

Lemma trigger_spec (s : AuditableContext) :
  trigger s = true ↔ is_Some (Resource s) ∧ is_Some (Action s).
Proof.
  unfold trigger. destruct (Resource s), (Action s); split; try done;
    intros [[? ?] [? ?]]; discriminate.
Qed.

Lemma trigger_stamped (w : World) (s : AuditableContext) :
  trigger (stamped w s) = trigger s.
Proof. unfold stamped. by destruct (response (wecho w)). Qed.

Lemma finish_spec (em : EchoMw) (ctx : Context) (l : loc) (err : option string)
    (w : World) (s : AuditableContext) (auditor : nat) :
  Auditor (cfg em) = Some auditor →
  wheap w !! l = Some s →
  finish em ctx l err w
  = Done (err, mkWorld (<[l := stamped w s]> (wheap w)) (wecho w) (wclock w)
                 (wspawned w ++ if trigger s
                                then [GoAudit auditor ctx (to_event (stamped w s))]
                                else [])).
Proof.
  intros Haud Hl. unfold finish.
  rewrite (modify_live _ _ _ _ Hl). cbn [obind].
  assert (Hstamp : stamp_response l (wecho w) (<[l := with_EndTime (wclock w) s]> (wheap w))
                   = Done (<[l := stamped w s]> (wheap w))).
  { unfold stamp_response, stamped. destruct (response (wecho w)) as [resp|]; [|done].
    rewrite (modify_live _ _ (with_EndTime (wclock w) s)) by apply lookup_insert_eq.
    by rewrite insert_insert_eq. }
  rewrite Hstamp. cbn [obind]. unfold load. rewrite lookup_insert_eq. cbn [obind].
  rewrite trigger_stamped. destruct (trigger s).
  - rewrite Haud. rewrite (ToEvent_live _ l (stamped w s)) by apply lookup_insert_eq.
    reflexivity.
  - unfold set_heap. by rewrite app_nil_r.
Qed.

(** C5. On a request that is not skipped, with NewTraceID and Auditor
    configured, when the handler returns (with or without an error) and the
    accumulator is in state s: Root returns the handler's own result, the
    accumulator has EndTime and, when there is a response, ResponseCode
    stamped, and one goroutine [Audit(ctx, event)] has been started with
    the event converted from the stamped accumulator exactly when both
    Resource and Action are set; otherwise none has been started. *)
Theorem Root_dispatch (em : EchoMw) (next : HandlerFunc) (w : World)
    (newTraceID : World → any * World) (auditor : nat)
    (traceID : any) (w0 : World) (err : option string) (w1 : World)
    (s : AuditableContext) :
  skipped em (request_Context (wecho w)) = false →
  NewTraceID (cfg em) = Some newTraceID →
  Auditor (cfg em) = Some auditor →
  newTraceID w = (traceID, w0) →
  let l := new_loc (wheap w0) in
  let created := new_AuditableContext traceID (wecho w0) (wclock w0) in
  next (set_echo (SetEchoAuditContext (Some l) (wecho w0))
          (set_heap (<[l := created]> (wheap w0)) w0)) = Done (err, w1) →
  wheap w1 !! l = Some s →
  ∃ w2, EchoMw_Root em next w = Done (err, w2)
    ∧ wheap w2 = <[l := stamped w1 s]> (wheap w1)
    ∧ EndTime (stamped w1 s) = wclock w1
    ∧ (∀ resp, response (wecho w1) = Some resp →
         ResponseCode (stamped w1 s) = Status resp)
    ∧ wspawned w2
      = wspawned w1
        ++ (if decide (is_Some (Resource s) ∧ is_Some (Action s))
            then [GoAudit auditor (request_Context (wecho w)) (to_event (stamped w1 s))]
            else []).
Proof.
  intros Hskip Hnew Haud Htrace l created Hnext Hl.
  eexists. split; [|split; [|split; [|split]]].
  - subst l created.
    unfold EchoMw_Root. rewrite Hskip, Hnew, Htrace. cbv beta iota zeta.
    lazymatch type of Hnext with
    | next ?started = _ =>
        lazymatch goal with
        | |- context [next ?x] => change x with started
        end
    end.
    rewrite Hnext. cbn [obind].
    by apply finish_spec.
  - done.
  - unfold stamped. by destruct (response (wecho w1)).
  - intros resp Hresp. unfold stamped. by rewrite Hresp.
  - cbn [wspawned]. f_equal. case_decide as Hset.
    + apply trigger_spec in Hset. by rewrite Hset.
    + destruct (trigger s) eqn:Ht; [|done]. by apply trigger_spec in Ht.
Qed.

(** *** The package-level singleton *)

Lemma Configure_again (c : Config) (g : package_state) :
  once_done g = true → Configure c g = g.
Proof. intros Hdone. unfold Configure. by rewrite Hdone. Qed.

(** C10. After Configure(cfg1), any further calls of Configure leave the
    package state as it is, so Root() and For() return the middleware of
    the instance built from cfg1; before any call of Configure, Root() and
    For() panic. *)
Theorem Configure_first_wins (cfg1 : Config) (later : list Config) :
  foldl (λ g c, Configure c g) (Configure cfg1 package_init) later
  = Configure cfg1 package_init
  ∧ Root (foldl (λ g c, Configure c g) (Configure cfg1 package_init) later)
    = Done (EchoMw_Root (NewEchoMiddleware cfg1))
  ∧ (∀ resource,
       For (foldl (λ g c, Configure c g) (Configure cfg1 package_init) later) resource
       = Done (EchoMw_For (NewEchoMiddleware cfg1) resource))
  ∧ (∃ msg, Root package_init = Panic msg)
  ∧ (∀ resource, ∃ msg, For package_init resource = Panic msg).
Proof.
  assert (Hsame : foldl (λ g c, Configure c g) (Configure cfg1 package_init) later
                  = Configure cfg1 package_init).
  { induction later as [|c later IH] using rev_ind; [done|].
    rewrite foldl_app. simpl. rewrite IH. by apply Configure_again. }
  rewrite Hsame. split; [done|]. split; [done|]. split; [done|].
  split; [by eexists|]. intros resource. by eexists.
Qed.

End Middleware.

Section MiddlewareWitnesses.
Import Sample.
#[local] Existing Instance Sample.universe.
#[local] Existing Instance Sample.encoding.

(** A request through Root and the route middleware for READ on User: the
    accumulator is allocated at address 3, and one event is handed over,
    with the end time, the status 200 and success. *)
Lemma Root_dispatch_witness :
  ∃ w2 ev, EchoMw_Root (NewEchoMiddleware config0)
             (EchoMw_For (NewEchoMiddleware config0) "User" "READ" slow_handler) world0
           = Done (None, w2)
    ∧ wspawned w2 = [GoAudit 0 [] ev]
    ∧ Event.EndTime ev = 2005%Z
    ∧ Event.ResponseCode ev = 200%Z
    ∧ Event.Success ev = true
    ∧ Event.UserID ev = Some (SNum 7).
Proof.
  edestruct (Root_dispatch (NewEchoMiddleware config0)
              (EchoMw_For (NewEchoMiddleware config0) "User" "READ" slow_handler) world0)
    as (w2 & Hroot & Hheap & Hend & Hcode & Hspawn);
    [reflexivity| reflexivity | reflexivity | reflexivity | vm_compute; reflexivity
    | vm_compute; reflexivity |].
  exists w2. eexists. split; [exact Hroot|]. split; [exact Hspawn|].
  repeat split.
Defined.

End MiddlewareWitnesses.

(** ** Goroutines merging and converting concurrently *)

Section Interleavings.
Context `{Encoding}.

Lemma effects_app (c1 c2 : list instr) (s : AuditableContext) :
  effects (c1 ++ c2) s = effects c2 (effects c1 s).
Proof. apply foldl_app. Qed.

Lemma effects_cons (ins : instr) (code : list instr) (s : AuditableContext) :
  effects (ins :: code) s = effects code (data_effect ins s).
Proof. done. Qed.

Lemma effects_assigns (es : list (string * any)) (s : AuditableContext)
    (target : gmap string any) :
  Metadata s = Some target →
  effects (map (λ kv, IAssign kv.1 kv.2) es) s
  = with_Metadata (Some (foldl (λ acc kv, <[kv.1 := kv.2]> acc) target es)) s.
Proof.
  revert s target. induction es as [|[k v] es IH]; intros s target Hs.
  - simpl. rewrite <-Hs. by destruct s.
  - cbn [map]. rewrite effects_cons, (IH _ (<[k := v]> target)).
    + simpl. by rewrite Hs.
    + simpl. by rewrite Hs.
Qed.

Lemma effects_body (metadata : gomap) (s : AuditableContext) :
  effects (SetBulkMetadata_body metadata) s = set_bulk_metadata metadata s.
Proof.
  unfold SetBulkMetadata_body. rewrite effects_cons.
  rewrite (effects_assigns _ _ (make_if_nil (Metadata s))) by done.
  unfold set_bulk_metadata, range_assign, entries.
  by destruct metadata.
Qed.

Lemma body_lookup (metadata : gomap) (k : nat) (ins : instr) :
  SetBulkMetadata_body metadata !! k = Some ins →
  (k = 0 ∧ ins = IMake) ∨ (0 < k ∧ ∃ key v, ins = IAssign key v).
Proof.
  unfold SetBulkMetadata_body. destruct k as [|k]; simpl.
  - intros [= <-]. by left.
  - intros Hk. right. split; [lia|].
    rewrite list_lookup_fmap in Hk.
    destruct (entries metadata !! k) as [[key v]|]; [|done].
    injection Hk as <-. by eexists _, _.
Qed.

Lemma code_lookup (metadata : gomap) (p : nat) (ins : instr) :
  SetBulkMetadata_code metadata !! p = Some ins →
  (p = 0 ∧ ins = ILock)
  ∨ (∃ k, p = S k ∧ SetBulkMetadata_body metadata !! k = Some ins)
  ∨ (p = S (length (SetBulkMetadata_body metadata)) ∧ ins = IUnlock).
Proof.
  unfold SetBulkMetadata_code. destruct p as [|k].
  - intros [= <-]. by left.
  - intros Hk. right.
    change ((SetBulkMetadata_body metadata ++ [IUnlock]) !! k = Some ins) in Hk.
    apply lookup_app_Some in Hk as [Hk|[Hlen Hk]].
    + left. by exists k.
    + right. apply list_lookup_singleton_Some in Hk as [Hk <-]. split; [|done]. lia.
Qed.

Lemma code_length (metadata : gomap) :
  length (SetBulkMetadata_code metadata) = S (S (length (SetBulkMetadata_body metadata))).
Proof. unfold SetBulkMetadata_code. rewrite length_cons, length_app. simpl. lia. Qed.

Lemma progress_of_start (metadata : gomap) (p : nat) (s : AuditableContext) :
  p ≤ 1 → progress_of metadata p s = s.
Proof.
  intros Hp. unfold progress_of. replace (p - 1) with 0 by lia. done.
Qed.

Lemma progress_of_end (metadata : gomap) (p : nat) (s : AuditableContext) :
  S (length (SetBulkMetadata_body metadata)) ≤ p →
  progress_of metadata p s = set_bulk_metadata metadata s.
Proof.
  intros Hp. unfold progress_of. rewrite take_ge by lia. apply effects_body.
Qed.

Lemma progress_of_next (metadata : gomap) (k : nat) (ins : instr) (s : AuditableContext) :
  SetBulkMetadata_body metadata !! k = Some ins →
  progress_of metadata (S (S k)) s = data_effect ins (progress_of metadata (S k) s).
Proof.
  intros Hk. unfold progress_of.
  replace (S (S k) - 1) with (S k) by lia. replace (S k - 1) with k by lia.
  rewrite (take_S_r _ _ _ Hk), effects_app. done.
Qed.

Lemma effects_Metadata (code : list instr) (s : AuditableContext) :
  is_Some (Metadata s) → is_Some (Metadata (effects code s)).
Proof.
  revert s. induction code as [|ins code IH]; intros s Hs; [done|].
  rewrite effects_cons. apply IH. destruct ins; simpl; eauto.
Qed.

Lemma progress_of_Metadata (metadata : gomap) (k : nat) (s : AuditableContext) :
  0 < k → is_Some (Metadata (progress_of metadata (S k) s)).
Proof.
  intros Hk. unfold progress_of. replace (S k - 1) with (S (k - 1)) by lia.
  unfold SetBulkMetadata_body. cbn [take]. rewrite effects_cons.
  apply effects_Metadata. simpl. eauto.
Qed.

Lemma exec_data (ins : instr) (k : nat) (metadata : gomap) (st : machine) :
  SetBulkMetadata_body metadata !! k = Some ins →
  (0 < k → is_Some (Metadata (shared st))) →
  exec ins st
  = Some (mkMachine (data_effect ins (shared st)) (writer_held st) (readers_held st)
            (pcs st) (returned st)).
Proof.
  intros Hk Hs. apply body_lookup in Hk as [[-> ->]|[Hpos (key & v & ->)]]; [done|].
  destruct (Hs Hpos) as [m Hm]. simpl. by rewrite Hm.
Qed.

Lemma merging_sym (s0 : AuditableContext) (m1 m2 : gomap) (p q : nat) (st : machine) :
  merging s0 m1 m2 p q st → merging s0 m2 m1 q p st.
Proof. unfold merging. tauto. Qed.

Lemma in_critical_iff (metadata : gomap) (p : nat) :
  in_critical metadata p ↔ 0 < p ≤ S (length (SetBulkMetadata_body metadata)).
Proof. unfold in_critical. rewrite code_length. lia. Qed.

(** One statement of a merging goroutine. *)
Lemma writer_step (s0 : AuditableContext) (m1 m2 : gomap) (p q : nat)
    (st st' : machine) (ins : instr) :
  merging s0 m1 m2 p q st →
  SetBulkMetadata_code m1 !! p = Some ins →
  exec ins st = Some st' →
  merging s0 m1 m2 (S p) q st'
  ∧ readers_held st' = readers_held st
  ∧ returned st' = returned st
  ∧ pcs st' = pcs st.
Proof.
  intros (Hp & Hq & Hw & Hex & Hr & Hs) Hcode Hexec.
  unfold merging. rewrite !in_critical_iff in *. rewrite !code_length in *.
  apply code_lookup in Hcode as [[-> ->]|[(k & -> & Hk)|[-> ->]]].
  - (* Lock *)
    simpl in Hexec.
    destruct (writer_held st) eqn:Hheld; [done|].
    destruct (Nat.eqb_spec (readers_held st) 0) as [Hzero|]; [|done].
    injection Hexec as <-. cbn [shared writer_held readers_held returned pcs].
    assert (Hout : ¬ (0 < q ≤ S (length (SetBulkMetadata_body m2)))).
    { intros Hin. by destruct Hw as [_ Hw]; specialize (Hw (or_intror Hin)). }
    split; [|done]. split; [lia|]. split; [done|]. split; [|split; [tauto|split]].
    + split; [intros _; left; lia|done].
    + done.
    + left. split; [done|]. rewrite (progress_of_start m1 1) by lia.
      destruct Hs as [[_ ->]|[_ ->]].
      * by rewrite (progress_of_start m1 0) by lia.
      * by rewrite (progress_of_start m1 0) by lia.
  - (* a statement of the body *)
    assert (Hlt : k < length (SetBulkMetadata_body m1)) by by eapply lookup_lt_Some.
    assert (Hin : 0 < S k ≤ S (length (SetBulkMetadata_body m1))) by lia.
    assert (Hout : ¬ (0 < q ≤ S (length (SetBulkMetadata_body m2)))) by tauto.
    destruct Hs as [[_ Hs]|[Hs _]]; [|tauto].
    rewrite (exec_data ins k m1) in Hexec; [|done|].
    2:{ intros Hpos. rewrite Hs. by apply progress_of_Metadata. }
    injection Hexec as <-. cbn [shared writer_held readers_held returned pcs].
    assert (Hheld : writer_held st = true) by (apply Hw; by left).
    split; [|done]. split; [lia|]. split; [done|]. split; [|split; [tauto|split]].
    + split; [intros _; left; lia|done].
    + done.
    + left. split; [done|]. rewrite Hs. symmetry. by apply progress_of_next.
  - (* Unlock *)
    assert (Hin : 0 < S (length (SetBulkMetadata_body m1))
                  ≤ S (length (SetBulkMetadata_body m1))) by lia.
    assert (Hout : ¬ (0 < q ≤ S (length (SetBulkMetadata_body m2)))) by tauto.
    assert (Hheld : writer_held st = true) by (apply Hw; by left).
    simpl in Hexec. rewrite Hheld in Hexec. injection Hexec as <-. cbn [shared writer_held readers_held returned pcs].
    destruct Hs as [[_ Hs]|[Hs _]]; [|tauto].
    split; [|done]. split; [lia|]. split; [done|]. split; [|split; [tauto|split]].
    + split; [intros [=]|]. intros [?|?]; [lia|tauto].
    + done.
    + left. split; [done|]. rewrite Hs.
      rewrite (progress_of_end m1 (S (length (SetBulkMetadata_body m1)))) by lia.
      by rewrite (progress_of_end m1 (S (S (length (SetBulkMetadata_body m1))))) by lia.
Qed.

(** While the write lock is free the accumulator reflects whole merges
    only. *)
Lemma unlocked_whole (s0 : AuditableContext) (m1 m2 : gomap) (p q : nat) (st : machine) :
  merging s0 m1 m2 p q st →
  writer_held st = false →
  Metadata (shared st) ∈ whole_merges m1 m2 (Metadata s0).
Proof.
  intros (Hp & Hq & Hw & Hex & Hr & Hs) Hfree.
  rewrite !in_critical_iff in *. rewrite !code_length in *.
  assert (Hp' : p = 0 ∨ p = S (S (length (SetBulkMetadata_body m1)))).
  { destruct (decide (p = 0)); [by left|right].
    destruct (decide (p ≤ S (length (SetBulkMetadata_body m1)))); [|lia].
    assert (writer_held st = true) by (apply Hw; left; lia). congruence. }
  assert (Hq' : q = 0 ∨ q = S (S (length (SetBulkMetadata_body m2)))).
  { destruct (decide (q = 0)); [by left|right].
    destruct (decide (q ≤ S (length (SetBulkMetadata_body m2)))); [|lia].
    assert (writer_held st = true) by (apply Hw; right; lia). congruence. }
  unfold whole_merges, merge_of.
  destruct Hp' as [-> | ->], Hq' as [-> | ->], Hs as [[_ ->]|[_ ->]];
    rewrite ?(progress_of_start _ 0) by lia;
    rewrite ?progress_of_end by lia;
    rewrite ?set_bulk_metadata_Metadata;
    rewrite ?(progress_of_start _ 0) by lia;
    rewrite ?progress_of_end by lia;
    rewrite ?set_bulk_metadata_Metadata;
    repeat first [apply list_elem_of_here | apply list_elem_of_further].
Qed.

(** One statement of a converting goroutine. *)
Lemma reader_step (s0 : AuditableContext) (m1 m2 : gomap) (p q pc : nat)
    (st st' : machine) (ins : instr) :
  merging s0 m1 m2 p q st →
  ToEvent_code !! pc = Some ins →
  exec ins st = Some st' →
  (reading pc → 0 < readers_held st) →
  merging s0 m1 m2 p q st'
  ∧ pcs st' = pcs st
  ∧ readers_held st' + (if decide (reading pc) then 1 else 0)
    = readers_held st + (if decide (reading (S pc)) then 1 else 0)
  ∧ (returned st' = returned st
     ∨ ∃ ev, returned st' = returned st ++ [ev]
         ∧ Event.Metadata ev ∈ whole_merges m1 m2 (Metadata s0)).
Proof.
  intros Hm Hcode Hexec Hcount.
  assert (Hm' := Hm). destruct Hm' as (Hp & Hq & Hw & Hex & Hr & Hs).
  unfold ToEvent_code in Hcode.
  destruct pc as [|[|[|pc]]]; cbn in Hcode; [..|done]; injection Hcode as <-;
    cbn [exec] in Hexec.
  - (* RLock *)
    destruct (writer_held st) eqn:Hheld; [done|]. injection Hexec as <-.
    split; [|split; [done|split; [|by left]]].
    + unfold merging. cbn [shared writer_held readers_held].
      split; [done|]. split; [done|]. split; [done|]. split; [done|]. split; [done|done].
    + cbn [readers_held]. repeat case_decide; unfold reading in *; lia.
  - (* the snapshot *)
    injection Hexec as <-.
    split; [exact Hm|]. split; [done|]. split; [done|]. right.
    eexists. split; [done|]. simpl.
    apply (unlocked_whole s0 m1 m2 p q st Hm).
    destruct (writer_held st); [|done].
    specialize (Hcount (or_introl eq_refl)). specialize (Hr eq_refl). lia.
  - (* RUnlock *)
    destruct (readers_held st) as [|r] eqn:Hreaders; [done|]. injection Hexec as <-.
    split; [|split; [done|split; [|by left]]].
    + unfold merging. cbn [shared writer_held readers_held].
      split; [done|]. split; [done|]. split; [done|]. split; [done|]. split; [|done].
      intros Hheld. specialize (Hr Hheld). lia.
    + cbn [readers_held]. repeat case_decide; unfold reading in *; lia.
Qed.

Lemma count_reading_insert (rs : list nat) (j pc pc' : nat) :
  rs !! j = Some pc →
  count_reading (<[j := pc']> rs) + (if decide (reading pc) then 1 else 0)
  = count_reading rs + (if decide (reading pc') then 1 else 0).
Proof.
  unfold count_reading. revert j. induction rs as [|r rs IH]; intros j Hj; [done|].
  destruct j as [|j]; simpl in *.
  - injection Hj as ->. rewrite !filter_cons. repeat case_decide; simpl; lia.
  - specialize (IH j Hj). rewrite !filter_cons. repeat case_decide; simpl; lia.
Qed.

Lemma count_reading_pos (rs : list nat) (j pc : nat) :
  rs !! j = Some pc → reading pc → 0 < count_reading rs.
Proof.
  unfold count_reading. revert j. induction rs as [|r rs IH]; intros j Hj Hpc; [done|].
  rewrite filter_cons. destruct j as [|j]; simpl in *.
  - injection Hj as ->. rewrite decide_True by done. simpl. lia.
  - specialize (IH j Hj Hpc). case_decide; simpl; lia.
Qed.

Lemma step_inv (pool : list (list instr)) (t : nat) (st st' : machine) :
  step pool t st = Some st' →
  ∃ pc code ins st1,
    pcs st !! t = Some pc ∧ pool !! t = Some code ∧ code !! pc = Some ins
    ∧ exec ins st = Some st1 ∧ st' = advance t pc st1.
Proof.
  unfold step. intros Hstep.
  destruct (pcs st !! t) as [pc|] eqn:Hpc; simpl in Hstep; [|done].
  destruct (pool !! t) as [code|] eqn:Hcode; simpl in Hstep; [|done].
  destruct (code !! pc) as [ins|] eqn:Hins; simpl in Hstep; [|done].
  destruct (exec ins st) as [st1|] eqn:Hexec; simpl in Hstep; [|done].
  injection Hstep as <-. by exists pc, code, ins, st1.
Qed.

Lemma step_intro (pool : list (list instr)) (t pc : nat) (code : list instr)
    (ins : instr) (st st1 : machine) :
  pcs st !! t = Some pc → pool !! t = Some code → code !! pc = Some ins →
  exec ins st = Some st1 → step pool t st = Some (advance t pc st1).
Proof.
  intros Hpc Hcode Hins Hexec. unfold step. rewrite Hpc, Hcode. simpl.
  rewrite Hins. simpl. by rewrite Hexec.
Qed.

Lemma start_invariant (s0 : AuditableContext) (m1 m2 : gomap) (n : nat) :
  pool_invariant s0 m1 m2 n (start (two_merges m1 m2 n) s0).
Proof.
  exists 0, 0, (replicate n 0). unfold start, two_merges. cbn [pcs readers_held returned].
  split; [by rewrite !length_cons, length_replicate|].
  split; [apply length_replicate|].
  split; [apply Forall_replicate; lia|].
  split; [|split; [|done]].
  - unfold merging. cbn [shared writer_held readers_held].
    rewrite !in_critical_iff.
    split; [lia|]. split; [lia|]. split; [|split; [lia|split; [done|]]].
    + split; [done|lia].
    + left. split; [lia|]. by rewrite !progress_of_start by lia.
  - unfold count_reading. induction n as [|n IH]; [done|].
    simpl. rewrite filter_cons, decide_False; [done|]. unfold reading. lia.
Qed.

Lemma merging_advance (s0 : AuditableContext) (m1 m2 : gomap) (p q t pc : nat)
    (st : machine) :
  merging s0 m1 m2 p q st → merging s0 m1 m2 p q (advance t pc st).
Proof. done. Qed.

Lemma step_invariant (s0 : AuditableContext) (m1 m2 : gomap) (n t : nat)
    (st st' : machine) :
  pool_invariant s0 m1 m2 n st →
  step (two_merges m1 m2 n) t st = Some st' →
  pool_invariant s0 m1 m2 n st'.
Proof.
  intros (p & q & rs & Hpcs & Hlen & Hle & Hm & Hcount & Hret) Hstep.
  apply step_inv in Hstep as (pc & code & ins & st1 & Hpc & Hcode & Hins & Hexec & ->).
  rewrite Hpcs in Hpc. unfold two_merges in Hcode.
  destruct t as [|[|j]]; cbn in Hpc, Hcode.
  - (* the first merging goroutine *)
    injection Hpc as <-. injection Hcode as <-.
    destruct (writer_step s0 m1 m2 p q st st1 ins Hm Hins Hexec)
      as (Hm1 & Hr1 & Hret1 & Hpcs1).
    exists (S p), q, rs.
    split; [cbn [advance pcs]; by rewrite Hpcs1, Hpcs|].
    split; [done|]. split; [done|]. split; [by apply merging_advance|].
    cbn [advance readers_held returned]. rewrite Hr1, Hret1. done.
  - (* the second merging goroutine *)
    injection Hpc as <-. injection Hcode as <-.
    destruct (writer_step s0 m2 m1 q p st st1 ins (merging_sym _ _ _ _ _ _ Hm) Hins Hexec)
      as (Hm1 & Hr1 & Hret1 & Hpcs1).
    apply merging_sym in Hm1.
    exists p, (S q), rs.
    split; [cbn [advance pcs]; by rewrite Hpcs1, Hpcs|].
    split; [done|]. split; [done|]. split; [by apply merging_advance|].
    cbn [advance readers_held returned]. rewrite Hr1, Hret1. done.
  - (* a converting goroutine *)
    apply lookup_replicate in Hcode as [-> Hj].
    destruct (reader_step s0 m1 m2 p q pc st st1 ins Hm Hins Hexec)
      as (Hm1 & Hpcs1 & Hr1 & Hret1).
    { intros Hreading. rewrite Hcount. by eapply count_reading_pos. }
    exists p, q, (<[j := S pc]> rs).
    split; [cbn [advance pcs]; by rewrite Hpcs1, Hpcs|].
    split; [by rewrite length_insert|].
    split.
    { apply Forall_insert; [done|].
      apply lookup_lt_Some in Hins. unfold ToEvent_code in Hins. simpl in Hins. lia. }
    split; [by apply merging_advance|].
    cbn [advance readers_held returned]. split.
    { pose proof (count_reading_insert rs j pc (S pc) Hpc). lia. }
    destruct Hret1 as [->|(ev & -> & Hev)]; [done|].
    apply Forall_app. split; [done|]. by apply Forall_singleton.
Qed.

Lemma run_invariant (s0 : AuditableContext) (m1 m2 : gomap) (n : nat)
    (schedule : list nat) (st st' : machine) :
  pool_invariant s0 m1 m2 n st →
  run (two_merges m1 m2 n) schedule st = Some st' →
  pool_invariant s0 m1 m2 n st'.
Proof.
  revert st. induction schedule as [|t schedule IH]; intros st Hinv Hrun; simpl in Hrun.
  - by injection Hrun as <-.
  - destruct (step (two_merges m1 m2 n) t st) as [st1|] eqn:Hstep; [|done].
    simpl in Hrun. eapply IH; [|done]. by eapply step_invariant.
Qed.


Lemma writer_enabled (s0 : AuditableContext) (m1 m2 : gomap) (p q : nat) (st : machine) :
  merging s0 m1 m2 p q st →
  in_critical m1 p →
  ∃ ins st1, SetBulkMetadata_code m1 !! p = Some ins ∧ exec ins st = Some st1.
Proof.
  intros (Hp & Hq & Hw & Hex & Hr & Hs) Hin.
  assert (Hheld : writer_held st = true) by (apply Hw; by left).
  destruct Hs as [[_ Hs]|[Hs _]]; [|done].
  unfold in_critical in Hin.
  destruct (lookup_lt_is_Some_2 (SetBulkMetadata_code m1) p) as [ins Hins]; [lia|].
  exists ins. destruct (code_lookup _ _ _ Hins) as [[-> ->]|[(k & -> & Hk)|[-> ->]]].
  - lia.
  - eexists. split; [done|]. apply (exec_data ins k m1); [done|].
    intros Hpos. rewrite Hs. by apply progress_of_Metadata.
  - eexists. split; [done|]. simpl. by rewrite Hheld.
Qed.










End Interleavings.


Section InterleavingWitnesses.
Import Sample.
#[local] Existing Instance Sample.universe.
#[local] Existing Instance Sample.encoding.


End InterleavingWitnesses.

(** ** More on setters and merges *)

Section MoreOnSetters.
Context `{Encoding}.

Lemma apply_options_app (ac : ptr) (opts1 opts2 : list ContextOption) (h : heap) :
  apply_options ac (opts1 ++ opts2) h
  = obind (apply_options ac opts1 h) (apply_options ac opts2).
Proof.
  revert h. induction opts1 as [|opt opts1 IH]; intros h; [done|].
  cbn [app apply_options]. destruct (opt ac h) as [h'|msg]; [|done].
  cbn [obind]. apply IH.
Qed.

(** X1. Passing two lists of options in one call of SetContext is the same
    as two calls in a row, for any options: when one of the first panics,
    none of the second is run. *)
Theorem SetContext_app (ctx : Context) (opts1 opts2 : list ContextOption) (h : heap) :
  SetContext ctx (opts1 ++ opts2) h
  = obind (SetContext ctx opts1 h) (SetContext ctx opts2).
Proof.
  unfold SetContext. destruct (GetAuditContext ctx) as [l|]; [|done].
  apply apply_options_app.
Qed.

(** The loop of SetBulkMetadata gives the same map whatever the order in
    which the entries are visited. *)
Lemma foldl_assign_order (m target : gmap string any) (order : list (string * any)) :
  order ≡ₚ map_to_list m →
  foldl (λ acc kv, <[kv.1 := kv.2]> acc) target order = m ∪ target.
Proof.
  intros Hperm. rewrite foldl_assign. f_equal.
  rewrite <-(list_to_map_to_list m).
  apply list_to_map_proper.
  - rewrite fmap_reverse, reverse_Permutation, Hperm. apply NoDup_fst_map_to_list.
  - by rewrite reverse_Permutation.
Qed.

(** X2. Go ranges over a map in an unspecified order; the merge does not
    depend on it: visiting the entries of the merged map in any order gives
    what SetBulkMetadata is modelled to give. *)
Theorem range_order_irrelevant (m target : gmap string any) (order : list (string * any)) :
  order ≡ₚ map_to_list m →
  foldl (λ acc kv, <[kv.1 := kv.2]> acc) target order = range_assign (Some m) target.
Proof.
  intros Hperm. rewrite range_assign_union. by apply foldl_assign_order.
Qed.

(** X3. SetBulkMetadata, key by key: a key of the merged map gets the merged
    value, every other key keeps what it had, and no key is lost, so a nil
    or empty map merged in changes no entry. *)
Theorem SetBulkMetadata_lookup (h : heap) (l : loc) (s : AuditableContext) (metadata : gomap) :
  h !! l = Some s →
  ∃ s' m', SetBulkMetadata (Some l) metadata h = Done (<[l := s']> h)
    ∧ Metadata s' = Some m'
    ∧ (∀ k v, make_if_nil metadata !! k = Some v → m' !! k = Some v)
    ∧ (∀ k, make_if_nil metadata !! k = None → m' !! k = make_if_nil (Metadata s) !! k)
    ∧ (∀ k, is_Some (make_if_nil (Metadata s) !! k) → is_Some (m' !! k))
    ∧ (make_if_nil metadata = ∅ → m' = make_if_nil (Metadata s)).
Proof.
  intros Hl. exists (set_bulk_metadata metadata s), (make_if_nil metadata ∪ make_if_nil (Metadata s)).
  split; [by apply modify_live|].
  split; [rewrite set_bulk_metadata_Metadata; by destruct metadata|].
  split; [|split; [|split]].
  - intros k v Hk. by apply lookup_union_Some_l.
  - intros k Hk. by apply lookup_union_r.
  - intros k [v Hk]. rewrite lookup_union.
    destruct (make_if_nil metadata !! k); rewrite ?Hk; eauto.
  - intros ->. by rewrite (left_id_L ∅ (∪)).
Qed.

Lemma set_bulk_metadata_twice (m1 m2 : gmap string any) (s : AuditableContext) :
  set_bulk_metadata (Some m2) (set_bulk_metadata (Some m1) s)
  = set_bulk_metadata (Some (m2 ∪ m1)) s.
Proof.
  unfold set_bulk_metadata, with_Metadata. cbn [Metadata TraceID UserID Action Resource
    ResourceID OldData NewData IPAddress UserAgent RequestURI Method ResponseCode
    StartTime EndTime make_if_nil].
  rewrite !range_assign_union. by rewrite (assoc_L (∪)).
Qed.

(** X4. Two merges in a row are one merge of the union in which the later
    map wins; in particular merging the same map twice is merging it once. *)
Theorem SetBulkMetadata_compose (h : heap) (l : loc) (s : AuditableContext)
    (m1 m2 : gmap string any) :
  h !! l = Some s →
  obind (SetBulkMetadata (Some l) (Some m1) h) (SetBulkMetadata (Some l) (Some m2))
  = SetBulkMetadata (Some l) (Some (m2 ∪ m1)) h
  ∧ obind (SetBulkMetadata (Some l) (Some m1) h) (SetBulkMetadata (Some l) (Some m1))
    = SetBulkMetadata (Some l) (Some m1) h.
Proof.
  intros Hl. unfold SetBulkMetadata.
  rewrite !(modify_live _ _ _ _ Hl). cbn [obind].
  rewrite !(modify_live _ _ (set_bulk_metadata (Some m1) s)) by apply lookup_insert_eq.
  rewrite !insert_insert_eq, !set_bulk_metadata_twice.
  split; [done|]. by rewrite (idemp_L (∪)).
Qed.

(** X5. SetMetadata is the merge of a one-entry map, on every receiver: both
    panic on a nil pointer, both make the map when it is nil. *)
Theorem SetMetadata_as_merge (ac : ptr) (key : string) (v : any) (h : heap) :
  SetMetadata ac key v h = SetBulkMetadata ac (Some {[ key := v ]}) h.
Proof.
  unfold SetMetadata, SetBulkMetadata, modify.
  destruct ac as [l|]; [|done]. destruct (h !! l) as [s|]; [|done].
  do 2 f_equal. unfold set_metadata, set_bulk_metadata.
  by rewrite range_assign_union, insert_union_singleton_l.
Qed.

Lemma modify_modify (ac : ptr) (f g : AuditableContext → AuditableContext) (h : heap) :
  obind (modify ac f h) (modify ac g) = modify ac (g ∘ f) h.
Proof.
  unfold modify. destruct ac as [l|]; [|done].
  destruct (h !! l) as [s|]; [|done]. cbn [obind].
  by rewrite lookup_insert_eq, insert_insert_eq.
Qed.

(** X6. On one accumulator the last write to a field wins, and the setters
    of ResourceID, OldData, NewData and UserID commute with one another, so
    the order of the options of a decorator does not matter. *)
Theorem setters_order (ac : ptr) (h : heap) (a b : any) :
  obind (SetUserID ac a h) (SetUserID ac b) = SetUserID ac b h
  ∧ obind (SetResourceID ac a h) (SetResourceID ac b) = SetResourceID ac b h
  ∧ obind (SetOldData ac a h) (SetOldData ac b) = SetOldData ac b h
  ∧ obind (SetNewData ac a h) (SetNewData ac b) = SetNewData ac b h
  ∧ obind (SetResourceID ac a h) (SetOldData ac b)
    = obind (SetOldData ac b h) (SetResourceID ac a)
  ∧ obind (SetResourceID ac a h) (SetNewData ac b)
    = obind (SetNewData ac b h) (SetResourceID ac a)
  ∧ obind (SetOldData ac a h) (SetNewData ac b)
    = obind (SetNewData ac b h) (SetOldData ac a)
  ∧ obind (SetUserID ac a h) (SetResourceID ac b)
    = obind (SetResourceID ac b h) (SetUserID ac a)
  ∧ obind (SetUserID ac a h) (SetOldData ac b)
    = obind (SetOldData ac b h) (SetUserID ac a)
  ∧ obind (SetUserID ac a h) (SetNewData ac b)
    = obind (SetNewData ac b h) (SetUserID ac a).
Proof.
  unfold SetUserID, SetResourceID, SetOldData, SetNewData.
  rewrite !modify_modify. repeat split.
Qed.

End MoreOnSetters.

(** ** More on the decorators *)

Section MoreOnDecorators.
Context `{Encoding}.

Ltac run_options Hctx Hl l :=
  rewrite (SetContext_attached _ l) by exact Hctx; cbn [apply_options app];
  unfold WithResourceID, WithOldData, WithNewData, WithBulkMetadata,
    SetResourceID, SetOldData, SetNewData, SetBulkMetadata;
  rewrite (modify_live _ _ _ _ Hl); cbn [obind];
  repeat (erewrite modify_live by apply lookup_insert_eq; cbn [obind];
          rewrite insert_insert_eq).

Ltac same_fields :=
  let f := fresh "f" in
  let Hf := fresh "Hf" in
  intros f Hf; destruct f; try done;
  exfalso; apply Hf; repeat first [apply list_elem_of_here | apply list_elem_of_further].

(** X7. On a context with a live accumulator attached, AuditableCreate sets
    ResourceID and NewData, AuditableUpdate sets ResourceID, OldData and
    NewData, AuditableDelete sets ResourceID and OldData, AuditableGet sets
    ResourceID; each leaves all other fields, and all other accumulators, as
    they were. *)
Theorem CRUD_decorators (ctx : Context) (h : heap) (l : loc) (s : AuditableContext) :
  GetAuditContext ctx = Some l → h !! l = Some s →
  (∀ resourceID newData, ∃ s',
     AuditableCreate ctx resourceID newData h = Done (<[l := s']> h)
     ∧ ResourceID s' = resourceID ∧ NewData s' = newData
     ∧ only_changes_in [FResourceID; FNewData] s s')
  ∧ (∀ resourceID oldData newData, ∃ s',
       AuditableUpdate ctx resourceID oldData newData h = Done (<[l := s']> h)
       ∧ ResourceID s' = resourceID ∧ OldData s' = oldData ∧ NewData s' = newData
       ∧ only_changes_in [FResourceID; FOldData; FNewData] s s')
  ∧ (∀ resourceID oldData, ∃ s',
       AuditableDelete ctx resourceID oldData h = Done (<[l := s']> h)
       ∧ ResourceID s' = resourceID ∧ OldData s' = oldData
       ∧ only_changes_in [FResourceID; FOldData] s s')
  ∧ (∀ resourceID, ∃ s',
       AuditableGet ctx resourceID h = Done (<[l := s']> h)
       ∧ ResourceID s' = resourceID
       ∧ only_changes_in [FResourceID] s s').
Proof.
  intros Hctx Hl.
  unfold AuditableCreate, AuditableUpdate, AuditableDelete, AuditableGet.
  split; [|split; [|split]]; intros; run_options Hctx Hl l;
    (eexists; split; [done|]); repeat split; same_fields.
Qed.


(** X9. After AuditableUpdate, the event ToEvent returns carries the
    resource identifier, and for each of the two snapshots the bytes
    json.Marshal gives, or nothing when the snapshot is nil or does not
    marshal; the other fields are those of the accumulator before. *)
Theorem AuditableUpdate_then_ToEvent (ctx : Context) (h : heap) (l : loc)
    (s : AuditableContext) (resourceID oldData newData : any) :
  GetAuditContext ctx = Some l → h !! l = Some s →
  ∃ h' ev,
    AuditableUpdate ctx resourceID oldData newData h = Done h'
    ∧ ToEvent (Some l) h' = Done ev
    ∧ Event.ResourceID ev = resourceID
    ∧ (∀ v data, oldData = Some v → json_Marshal oldData = Ok data →
         Event.OldData ev = Some data)
    ∧ (∀ v data, newData = Some v → json_Marshal newData = Ok data →
         Event.NewData ev = Some data)
    ∧ (oldData = None ∨ (∃ e, json_Marshal oldData = Err e) → Event.OldData ev = None)
    ∧ (newData = None ∨ (∃ e, json_Marshal newData = Err e) → Event.NewData ev = None)
    ∧ Event.TraceID ev = TraceID s
    ∧ Event.UserID ev = UserID s
    ∧ Event.Action ev = Action s
    ∧ Event.Resource ev = Resource s
    ∧ Event.Metadata ev = Metadata s
    ∧ Event.ResponseCode ev = ResponseCode s.
Proof.
  intros Hctx Hl.
  exists (<[l := with_NewData newData (with_OldData oldData (with_ResourceID resourceID s))]> h).
  eexists. split.
  { unfold AuditableUpdate. by run_options Hctx Hl l. }
  split; [apply ToEvent_live, lookup_insert_eq|].
  split; [done|]. cbn [to_event Event.OldData Event.NewData with_NewData with_OldData
                        with_ResourceID OldData NewData].
  split; [|split; [|split; [|split]]].
  - intros v data -> Hd. by apply marshal_if_set_ok.
  - intros v data -> Hd. by apply marshal_if_set_ok.
  - intros [-> | [e He]]; [done|]. by eapply marshal_if_set_error.
  - intros [-> | [e He]]; [done|]. by eapply marshal_if_set_error.
  - repeat split.
Qed.

End MoreOnDecorators.

(** ** More on the serialized event *)

Section MoreOnSerialization.
Context `{Encoding}.

Lemma encode_fields_keys_sublist (fields : list struct_field)
    (members : list (string * bytes)) :
  encode_fields fields = Ok members → members.*1 `sublist_of` json_key <$> fields.
Proof.
  revert members. induction fields as [|f fields IH]; intros members Henc; simpl in Henc.
  - injection Henc as <-. constructor.
  - destruct (omitempty f && isEmptyValue (field_value f)).
    + rewrite fmap_cons. apply sublist_cons. by apply IH.
    + destruct (encode (field_value f)) as [text|]; [|done].
      destruct (encode_fields fields) as [rest|]; [|done].
      injection Henc as <-. rewrite !fmap_cons. apply sublist_skip. by apply IH.
Qed.

Lemma encode_fields_error (fields : list struct_field) (f : struct_field) (e : string) :
  f ∈ fields → written f → encode (field_value f) = Err e →
  ∃ e', encode_fields fields = Err e'.
Proof.
  unfold written. intros Hin Hw He.
  induction fields as [|g fields IH]; [by apply elem_of_nil in Hin|].
  simpl. apply elem_of_cons in Hin as [<-|Hin].
  - rewrite Hw, He. by eexists.
  - destruct (IH Hin) as [e' He'].
    destruct (omitempty g && isEmptyValue (field_value g)); [by eexists|].
    destruct (encode (field_value g)); [|by eexists].
    rewrite He'. by eexists.
Qed.

(** X10. The members of a serialized event come in the order of the fields
    of the struct, each key at most once. *)
Theorem serialized_keys_in_order (e : AuditEvent) (members : list (string * bytes)) :
  Marshal_AuditEvent e = Ok members →
  members.*1 `sublist_of` AuditEvent_keys ∧ NoDup members.*1.
Proof.
  intros Henc. apply encode_fields_keys_sublist in Henc.
  change (json_key <$> AuditEvent_fields e) with AuditEvent_keys in Henc.
  split; [done|]. eapply sublist_NoDup; [|done].
  by apply (bool_decide_unpack _).
Qed.

Ltac the_field Hin :=
  unfold AuditEvent_fields in Hin;
  repeat (apply elem_of_cons in Hin as [->|Hin]);
  [..|by apply elem_of_nil in Hin].

Ltac is_field :=
  unfold AuditEvent_fields;
  repeat first [apply list_elem_of_here | apply list_elem_of_further].

(** Whether a key is present is decided by the one field that carries it. *)
Ltac key_by_field Henc f :=
  rewrite (Marshal_AuditEvent_has_key _ _ _ Henc);
  let g := fresh "g" in
  let Hin := fresh "Hin" in
  let Hk := fresh "Hk" in
  let Hw := fresh "Hw" in
  transitivity (written f);
  [ split;
    [ intros (g & Hin & Hk & Hw); the_field Hin; try discriminate Hk; exact Hw
    | intros Hw; exists f; split; [is_field|split; [done|exact Hw]] ]
  | unfold written; cbn [omitempty field_value isEmptyValue andb to_event
                         Event.UserID Event.Action Event.Resource Event.ResourceID
                         Event.Metadata Event.IPAddress Event.UserAgent Event.RequestURI
                         Event.Method Event.ResponseCode Event.OldData Event.NewData] ].

Lemma nonempty_string (x : string) : Nat.eqb (String.length x) 0 = false ↔ x ≠ "".
Proof. destruct x; simpl; split; done. Qed.

Lemma nonempty_snapshot (x : any) :
  Nat.eqb (length (default [] (marshal_if_set x))) 0 = false
  ↔ ∃ v data, x = Some v ∧ json_Marshal x = Ok data ∧ data ≠ [].
Proof.
  destruct x as [v|]; simpl.
  - destruct (json_Marshal (Some v)) as [data|e]; simpl.
    + destruct data as [|b data]; simpl; split; try done.
      * intros (? & ? & _ & [= <-] & Hne). done.
      * intros _. by exists v, (b :: data).
    + split; [done|]. intros (? & ? & _ & [=] & _).
  - split; [done|]. intros (? & ? & [=] & _).
Qed.

(** X11. Which optional keys a serialized event has: userId, action,
    resource and resourceId when the field is not nil; metadata when the map
    has an entry; ipAddress, userAgent, requestUri and method when the
    string is not empty; responseCode when the code is not 0; oldData and
    newData when the snapshot is not nil and marshals to at least one
    byte. *)
Theorem optional_keys (s : AuditableContext) (members : list (string * bytes)) :
  Marshal_AuditEvent (to_event s) = Ok members →
  (has_key "userId" members ↔ UserID s ≠ None)
  ∧ (has_key "action" members ↔ Action s ≠ None)
  ∧ (has_key "resource" members ↔ Resource s ≠ None)
  ∧ (has_key "resourceId" members ↔ ResourceID s ≠ None)
  ∧ (has_key "metadata" members ↔ make_if_nil (Metadata s) ≠ ∅)
  ∧ (has_key "ipAddress" members ↔ IPAddress s ≠ "")
  ∧ (has_key "userAgent" members ↔ UserAgent s ≠ "")
  ∧ (has_key "requestUri" members ↔ RequestURI s ≠ "")
  ∧ (has_key "method" members ↔ Method s ≠ "")
  ∧ (has_key "responseCode" members ↔ ResponseCode s ≠ 0%Z)
  ∧ (has_key "oldData" members
     ↔ ∃ v data, OldData s = Some v ∧ json_Marshal (OldData s) = Ok data ∧ data ≠ [])
  ∧ (has_key "newData" members
     ↔ ∃ v data, NewData s = Some v ∧ json_Marshal (NewData s) = Ok data ∧ data ≠ []).
Proof.
  intros Henc. repeat split_and.
  - key_by_field Henc (mkField "userId" true (RInterface (Event.UserID (to_event s)))).
    destruct (UserID s); split; done.
  - key_by_field Henc (mkField "action" true (RStringPtr (Event.Action (to_event s)))).
    destruct (Action s); split; done.
  - key_by_field Henc (mkField "resource" true (RStringPtr (Event.Resource (to_event s)))).
    destruct (Resource s); split; done.
  - key_by_field Henc (mkField "resourceId" true (RInterface (Event.ResourceID (to_event s)))).
    destruct (ResourceID s); split; done.
  - key_by_field Henc (mkField "metadata" true (RMap (Event.Metadata (to_event s)))).
    rewrite <-map_size_empty_iff. destruct (Nat.eqb_spec (size (make_if_nil (Metadata s))) 0);
      split; done.
  - key_by_field Henc (mkField "ipAddress" true (RString (Event.IPAddress (to_event s)))).
    apply nonempty_string.
  - key_by_field Henc (mkField "userAgent" true (RString (Event.UserAgent (to_event s)))).
    apply nonempty_string.
  - key_by_field Henc (mkField "requestUri" true (RString (Event.RequestURI (to_event s)))).
    apply nonempty_string.
  - key_by_field Henc (mkField "method" true (RString (Event.Method (to_event s)))).
    apply nonempty_string.
  - key_by_field Henc (mkField "responseCode" true (RInt (Event.ResponseCode (to_event s)))).
    apply Z.eqb_neq.
  - key_by_field Henc (mkField "oldData" true (RRawMessage (Event.OldData (to_event s)))).
    apply nonempty_snapshot.
  - key_by_field Henc (mkField "newData" true (RRawMessage (Event.NewData (to_event s)))).
    apply nonempty_snapshot.
Qed.

(** X12. ToEvent forgives a snapshot that does not marshal, the
    serialization of the event forgives nothing: when the trace identifier,
    or a user or resource identifier that is set, or a Metadata map with an
    entry, does not encode, the event does not serialize at all. *)
Theorem unencodable_event (s : AuditableContext) :
  (∃ e, encode (RInterface (TraceID s)) = Err e)
  ∨ (UserID s ≠ None ∧ ∃ e, encode (RInterface (UserID s)) = Err e)
  ∨ (ResourceID s ≠ None ∧ ∃ e, encode (RInterface (ResourceID s)) = Err e)
  ∨ (make_if_nil (Metadata s) ≠ ∅ ∧ ∃ e, encode (RMap (Metadata s)) = Err e) →
  ∃ e', Marshal_AuditEvent (to_event s) = Err e'.
Proof.
  unfold Marshal_AuditEvent.
  intros [[e He]|[[Hset [e He]]|[[Hset [e He]]|[Hset [e He]]]]].
  - eapply (encode_fields_error _ (mkField "traceId" false (RInterface (TraceID s))));
      [is_field|done|exact He].
  - eapply (encode_fields_error _ (mkField "userId" true (RInterface (UserID s))));
      [is_field| |exact He].
    unfold written. simpl. by destruct (UserID s).
  - eapply (encode_fields_error _ (mkField "resourceId" true (RInterface (ResourceID s))));
      [is_field| |exact He].
    unfold written. simpl. by destruct (ResourceID s).
  - eapply (encode_fields_error _ (mkField "metadata" true (RMap (Metadata s))));
      [is_field| |exact He].
    unfold written. cbn [omitempty field_value isEmptyValue andb].
    rewrite <-map_size_empty_iff in Hset.
    by destruct (Nat.eqb_spec (size (make_if_nil (Metadata s))) 0).
Qed.

End MoreOnSerialization.

(** ** More on the Echo middleware *)

Section MoreOnMiddleware.
Context `{Encoding}.

Ltac same_fields :=
  let f := fresh "f" in
  let Hf := fresh "Hf" in
  intros f Hf; destruct f; try done;
  exfalso; apply Hf; repeat first [apply list_elem_of_here | apply list_elem_of_further].

Lemma SetEchoAuditContext_get (auditCtx : ptr) (c : EchoContext) :
  GetAuditContext (request_Context (SetEchoAuditContext auditCtx c)) = auditCtx.
Proof.
  unfold SetEchoAuditContext, GetAuditContext, WithValue. cbn [request_Context Value].
  by rewrite decide_True.
Qed.

(** X13. What SetEchoAuditContext stores can be read back both ways: by
    GetAuditContext from the context of the request, whatever was bound
    there before, and by c.Get under the key of the package.  Other keys of
    the store and of the context, and the request itself, are untouched. *)
Theorem SetEchoAuditContext_round_trip (auditCtx : ptr) (c : EchoContext) :
  GetAuditContext (request_Context (SetEchoAuditContext auditCtx c)) = auditCtx
  ∧ store (SetEchoAuditContext auditCtx c) !! audit_store_key = Some (AuditPointer auditCtx)
  ∧ (∀ k, k ≠ audit_store_key → store (SetEchoAuditContext auditCtx c) !! k = store c !! k)
  ∧ (∀ name, Value (request_Context (SetEchoAuditContext auditCtx c)) (ForeignKey name)
             = Value (request_Context c) (ForeignKey name))
  ∧ RealIP (SetEchoAuditContext auditCtx c) = RealIP c
  ∧ request_UserAgent (SetEchoAuditContext auditCtx c) = request_UserAgent c
  ∧ request_RequestURI (SetEchoAuditContext auditCtx c) = request_RequestURI c
  ∧ request_Method (SetEchoAuditContext auditCtx c) = request_Method c
  ∧ response (SetEchoAuditContext auditCtx c) = response c.
Proof.
  unfold SetEchoAuditContext. cbn [request_Context store RealIP request_UserAgent
    request_RequestURI request_Method response].
  split; [|split; [|split; [|split]]].
  - apply (SetEchoAuditContext_get auditCtx c).
  - apply lookup_insert_eq.
  - intros k Hk. by apply lookup_insert_ne.
  - intros name. unfold WithValue. cbn [Value]. by rewrite decide_False.
  - done.
Qed.

Lemma new_loc_fresh (h : heap) : h !! new_loc h = None.
Proof. apply not_elem_of_dom. unfold new_loc. apply is_fresh. Qed.

(** X14. On a request that is not skipped, Root calls the handler once, in
    a world where a new accumulator sits at an address that was free, with
    the trace identifier just drawn, the data of the request, an empty
    Metadata map and nothing else set; it is attached to the context of the
    request and to the store of Echo; no accumulator that existed is
    touched. *)
Theorem Root_attaches (em : EchoMw) (next : HandlerFunc) (w : World)
    (newTraceID : World → any * World) (traceID : any) (w0 : World) :
  skipped em (request_Context (wecho w)) = false →
  NewTraceID (cfg em) = Some newTraceID →
  newTraceID w = (traceID, w0) →
  ∃ l started,
    EchoMw_Root em next w = EchoMw_Root em (λ _, next started) w
    ∧ wheap w0 !! l = None
    ∧ wheap started !! l = Some (new_AuditableContext traceID (wecho w0) (wclock w0))
    ∧ (∀ l', l' ≠ l → wheap started !! l' = wheap w0 !! l')
    ∧ GetAuditContext (request_Context (wecho started)) = Some l
    ∧ store (wecho started) !! audit_store_key = Some (AuditPointer (Some l))
    ∧ wclock started = wclock w0
    ∧ wspawned started = wspawned w0.
Proof.
  intros Hskip Hnew Htrace.
  exists (new_loc (wheap w0)).
  exists (set_echo (SetEchoAuditContext (Some (new_loc (wheap w0))) (wecho w0))
            (set_heap (<[new_loc (wheap w0) :=
                          new_AuditableContext traceID (wecho w0) (wclock w0)]> (wheap w0))
               w0)).
  split; [|split; [|split; [|split; [|split; [|split]]]]].
  - unfold EchoMw_Root. by rewrite Hskip, Hnew, Htrace.
  - apply new_loc_fresh.
  - cbn [set_echo set_heap wheap]. apply lookup_insert_eq.
  - intros l' Hl'. cbn [set_echo set_heap wheap]. by apply lookup_insert_ne.
  - cbn [set_echo wecho]. apply SetEchoAuditContext_get.
  - cbn [set_echo wecho]. apply lookup_insert_eq.
  - done.
Qed.

Lemma For_run (em : EchoMw) (resource : EntityType) (action : ActionType)
    (next : HandlerFunc) (w : World) (l : loc) (s : AuditableContext) :
  store (wecho w) !! audit_store_key = Some (AuditPointer (Some l)) →
  wheap w !! l = Some s →
  EchoMw_For em resource action next w
  = next (set_heap (<[l := routed em (request_Context (wecho w)) resource action s]> (wheap w)) w).
Proof.
  intros Hstore Hl. unfold EchoMw_For. rewrite Hstore.
  rewrite (modify_live _ _ _ _ Hl). cbn [obind].
  rewrite (modify_live _ _ (with_Resource (Some resource) s)) by apply lookup_insert_eq.
  cbn [obind]. rewrite insert_insert_eq.
  unfold stamp_user, routed, user_after_For.
  destruct (UserFromContext (cfg em)) as [userFromContext|].
  - destruct (userFromContext (request_Context (wecho w))) as [u|].
    + rewrite (modify_live _ _ (with_Action (Some action) (with_Resource (Some resource) s)))
        by apply lookup_insert_eq.
      cbn [obind]. by rewrite insert_insert_eq.
    + cbn [obind]. by destruct s.
  - cbn [obind]. by destruct s.
Qed.

(** X15. For outside Root: with nothing under the key in the store of
    Echo, or a value that is not an accumulator, the route middleware only
    calls the handler; with a nil accumulator pointer under the key it
    panics before the handler runs. *)
Theorem For_outside_Root (em : EchoMw) (resource : EntityType) (action : ActionType)
    (next : HandlerFunc) (w : World) :
  (store (wecho w) !! audit_store_key = None →
     EchoMw_For em resource action next w = next w)
  ∧ (∀ v, store (wecho w) !! audit_store_key = Some (ForeignValue v) →
       EchoMw_For em resource action next w = next w)
  ∧ (store (wecho w) !! audit_store_key = Some (AuditPointer None) →
       ∃ msg, EchoMw_For em resource action next w = Panic msg).
Proof.
  unfold EchoMw_For. split; [|split].
  - by intros ->.
  - by intros v ->.
  - intros ->. by eexists.
Qed.

(** X16. For inside Root: the handler runs with Resource and Action set on
    the accumulator of the request, which from then on meets the condition
    for dispatch; UserID is replaced when an extractor is configured and
    returns a user, and kept otherwise; nothing else changes. *)
Theorem For_routes (em : EchoMw) (resource : EntityType) (action : ActionType)
    (next : HandlerFunc) (w : World) (l : loc) (s : AuditableContext) :
  store (wecho w) !! audit_store_key = Some (AuditPointer (Some l)) →
  wheap w !! l = Some s →
  ∃ s', EchoMw_For em resource action next w = next (set_heap (<[l := s']> (wheap w)) w)
    ∧ Resource s' = Some resource
    ∧ Action s' = Some action
    ∧ trigger s' = true
    ∧ UserID s' = user_after_For em (request_Context (wecho w)) (UserID s)
    ∧ only_changes_in [FResource; FAction; FUserID] s s'.
Proof.
  intros Hstore Hl.
  exists (routed em (request_Context (wecho w)) resource action s).
  split; [by apply For_run|]. repeat split. same_fields.
Qed.

(** X17. A route behind For is audited: on a request that is not skipped,
    with a handler that returns and leaves the accumulators their resource
    and action, Root over For hands exactly one more event to the auditor,
    carrying the resource and the action of the route, and returns the
    handler's result. *)
Theorem Root_For_dispatch (em : EchoMw) (resource : EntityType) (action : ActionType)
    (handler : HandlerFunc) (w : World)
    (newTraceID : World → any * World) (auditor : nat) (traceID : any) (w0 : World) :
  skipped em (request_Context (wecho w)) = false →
  NewTraceID (cfg em) = Some newTraceID →
  Auditor (cfg em) = Some auditor →
  newTraceID w = (traceID, w0) →
  keeps_route handler →
  ∃ started err w1 w2 ev,
    handler started = Done (err, w1)
    ∧ EchoMw_Root em (EchoMw_For em resource action handler) w = Done (err, w2)
    ∧ wspawned w2 = wspawned w1 ++ [GoAudit auditor (request_Context (wecho w)) ev]
    ∧ Event.Resource ev = Some resource
    ∧ Event.Action ev = Some action
    ∧ Event.EndTime ev = wclock w1.
Proof.
  intros Hskip Hnew Haud Htrace Hkeeps.
  set (l := new_loc (wheap w0)).
  set (created := new_AuditableContext traceID (wecho w0) (wclock w0)).
  set (attached := set_echo (SetEchoAuditContext (Some l) (wecho w0))
                     (set_heap (<[l := created]> (wheap w0)) w0)).
  set (s := routed em (request_Context (wecho attached)) resource action created).
  set (started := set_heap (<[l := s]> (wheap attached)) attached).
  destruct (Hkeeps started) as (err & w1 & Hrun & Hkept).
  destruct (Hkept l s) as (s1 & Hl1 & Hres & Hact);
    [subst started; cbn [set_heap wheap]; apply lookup_insert_eq|].
  assert (Htrig : trigger s1 = true).
  { unfold trigger. rewrite Hres, Hact. done. }
  exists started, err, w1. eexists. eexists.
  split; [exact Hrun|]. split; [|split; [|split; [|split]]].
  - unfold EchoMw_Root. rewrite Hskip, Hnew, Htrace. cbv beta iota zeta.
    fold l. fold created.
    change (set_echo (SetEchoAuditContext (Some l)
                        (wecho (set_heap (<[l := created]> (wheap w0)) w0)))
              (set_heap (<[l := created]> (wheap w0)) w0)) with attached.
    rewrite (For_run em resource action handler attached l created);
      [|subst attached; cbn [set_echo wecho]; apply lookup_insert_eq
       |subst attached; cbn [set_echo set_heap wheap]; apply lookup_insert_eq].
    fold s. fold started. rewrite Hrun. cbn [obind].
    rewrite (finish_spec em _ l err w1 s1 auditor Haud Hl1). rewrite Htrig. reflexivity.
  - reflexivity.
  - cbn [to_event Event.Resource]. unfold stamped.
    destruct (response (wecho w1)); cbn [with_ResponseCode with_EndTime Resource];
      by rewrite Hres.
  - cbn [to_event Event.Action]. unfold stamped.
    destruct (response (wecho w1)); cbn [with_ResponseCode with_EndTime Action];
      by rewrite Hact.
  - cbn [to_event Event.EndTime]. unfold stamped. by destruct (response (wecho w1)).
Qed.

End MoreOnMiddleware.

(** ** More on concurrent goroutines *)

Section MoreOnInterleavings.
Context `{Encoding}.


Lemma count_reading_none (rs : list nat) :
  count_reading rs = 0 → Forall (λ pc, ¬ reading pc) rs.
Proof.
  unfold count_reading. induction rs as [|pc rs IH]; [by constructor|].
  rewrite filter_cons. case_decide; simpl; [done|].
  intros Hzero. constructor; [done|by apply IH].
Qed.

(** X19. The mutex does its work in every reachable state: the write lock
    is held exactly while one of the two merging goroutines is between Lock
    and Unlock, never both; the number of read locks held is the number of
    converting goroutines between RLock and RUnlock; and while a merge is
    under way no conversion is. *)
Theorem mutual_exclusion (s0 : AuditableContext) (m1 m2 : gomap) (n : nat)
    (schedule : list nat) (st : machine) :
  run (two_merges m1 m2 n) schedule (start (two_merges m1 m2 n) s0) = Some st →
  ∃ p q rs,
    pcs st = p :: q :: rs
    ∧ (writer_held st = true ↔ in_critical m1 p ∨ in_critical m2 q)
    ∧ ¬ (in_critical m1 p ∧ in_critical m2 q)
    ∧ readers_held st = count_reading rs
    ∧ (in_critical m1 p ∨ in_critical m2 q → Forall (λ pc, ¬ reading pc) rs).
Proof.
  intros Hrun.
  assert (Hinv : pool_invariant s0 m1 m2 n st).
  { eapply run_invariant; [apply start_invariant|exact Hrun]. }
  destruct Hinv as (p & q & rs & Hpcs & _ & _ & (_ & _ & Hw & Hex & Hr & _) & Hcount & _).
  exists p, q, rs. repeat (split; [done|]).
  intros Hin. apply count_reading_none. rewrite <-Hcount. apply Hr. by apply Hw.
Qed.

Lemma run_app (pool : list (list instr)) (s1 s2 : list nat) (st : machine) :
  run pool (s1 ++ s2) st = run pool s1 st ≫= run pool s2.
Proof.
  revert st. induction s1 as [|t s1 IH]; intros st; [done|].
  cbn [app run]. destruct (step pool t st) as [st'|]; [|done]. simpl. apply IH.
Qed.

(** The first merging goroutine running alone for [k] statements. *)
Lemma solo_steps (s0 : AuditableContext) (m1 m2 : gomap) (n k : nat) :
  k ≤ length (SetBulkMetadata_code m1) →
  ∃ st, run (two_merges m1 m2 n) (replicate k 0) (start (two_merges m1 m2 n) s0) = Some st
    ∧ pcs st = k :: 0 :: replicate n 0
    ∧ merging s0 m1 m2 k 0 st
    ∧ readers_held st = 0
    ∧ returned st = [].
Proof.
  induction k as [|k IH]; intros Hk.
  - exists (start (two_merges m1 m2 n) s0). split; [done|].
    assert (Hstart : pcs (start (two_merges m1 m2 n) s0) = 0 :: 0 :: replicate n 0).
    { unfold start, two_merges. cbn [pcs length]. by rewrite length_replicate. }
    destruct (start_invariant s0 m1 m2 n) as (p & q & rs & Hpcs & _ & _ & Hm & _ & _).
    rewrite Hstart in Hpcs. injection Hpcs as <- <- <-. done.
  - destruct IH as (st & Hrun & Hpcs & Hm & Hreaders & Hret); [lia|].
    assert (Hins : ∃ ins st1, SetBulkMetadata_code m1 !! k = Some ins ∧ exec ins st = Some st1).
    { destruct (decide (k = 0)) as [->|Hpos].
      - exists ILock. eexists. split; [done|]. simpl.
        destruct Hm as (_ & _ & Hw & _).
        destruct (writer_held st); [|by rewrite Hreaders].
        destruct Hw as [Hw _]. destruct (Hw eq_refl) as [Hin|Hin];
          unfold in_critical in Hin; lia.
      - apply (writer_enabled s0 m1 m2 k 0 st Hm). unfold in_critical. lia. }
    destruct Hins as (ins & st1 & Hins & Hexec).
    destruct (writer_step s0 m1 m2 k 0 st st1 ins Hm Hins Hexec)
      as (Hm1 & Hreaders1 & Hret1 & Hpcs1).
    exists (advance 0 k st1). split; [|split; [|split; [|split]]].
    + rewrite replicate_S_end, run_app, Hrun. simpl.
      rewrite (step_intro _ 0 k (SetBulkMetadata_code m1) ins st st1); [done| |done|done|done].
      by rewrite Hpcs.
    + cbn [advance pcs]. by rewrite Hpcs1, Hpcs.
    + by apply merging_advance.
    + cbn [advance readers_held]. congruence.
    + cbn [advance returned]. congruence.
Qed.

(** X20. The statements agree with the method: a goroutine that runs
    SetBulkMetadata alone, from Lock to Unlock, leaves the accumulator as
    the method does on the heap, with the mutex free again. *)
Theorem solo_merge (s0 : AuditableContext) (m1 m2 : gomap) (n : nat) (l : loc) :
  ∃ st,
    run (two_merges m1 m2 n) (replicate (length (SetBulkMetadata_code m1)) 0)
      (start (two_merges m1 m2 n) s0) = Some st
    ∧ SetBulkMetadata (Some l) m1 {[ l := s0 ]} = Done {[ l := shared st ]}
    ∧ writer_held st = false
    ∧ readers_held st = 0.
Proof.
  destruct (solo_steps s0 m1 m2 n (length (SetBulkMetadata_code m1)))
    as (st & Hrun & _ & (_ & _ & Hw & _ & _ & Hs) & Hreaders & _); [done|].
  exists st. split; [exact Hrun|].
  assert (Hshared : shared st = set_bulk_metadata m1 s0).
  { destruct Hs as [[_ ->]|[_ ->]];
      rewrite (progress_of_start m2 0) by lia;
      rewrite progress_of_end by (rewrite code_length; lia);
      by rewrite ?(progress_of_start m2 0) by lia. }
  split; [|split; [|done]].
  - unfold SetBulkMetadata. rewrite (modify_live _ l s0) by apply lookup_singleton_eq.
    by rewrite Hshared, insert_singleton_eq.
  - destruct (writer_held st); [|done]. destruct Hw as [Hw _].
    destruct (Hw eq_refl) as [Hin|Hin]; unfold in_critical in Hin; lia.
Qed.

End MoreOnInterleavings.

Section MoreWitnesses.
Import Sample MoreSamples.
#[local] Existing Instance Sample.universe.
#[local] Existing Instance Sample.encoding.

Lemma range_order_irrelevant_witness :
  foldl (λ acc kv, <[kv.1 := kv.2]> acc) ∅ x_then_y = range_assign (Some xy) ∅
  ∧ foldl (λ acc kv, <[kv.1 := kv.2]> acc) ∅ y_then_x = range_assign (Some xy) ∅.
Proof.
  assert (Hlist : map_to_list xy = x_then_y ∨ map_to_list xy = y_then_x)
    by (vm_compute; tauto).
  split; apply range_order_irrelevant.
  - destruct Hlist as [-> | ->]; [reflexivity|apply perm_swap].
  - destruct Hlist as [-> | ->]; [apply perm_swap|reflexivity].
Defined.

(** Merging x and y into accumulator 2, which holds count. *)
Lemma SetBulkMetadata_lookup_witness :
  ∃ s' m', SetBulkMetadata (Some 2%positive) (Some xy) heap0 = Done (<[2%positive := s']> heap0)
    ∧ Metadata s' = Some m'
    ∧ m' !! "x" = Some (Some (SNum 1))
    ∧ m' !! "count" = Some (Some (SNum 3)).
Proof.
  destruct (SetBulkMetadata_lookup heap0 2%positive busy_accumulator (Some xy) eq_refl)
    as (s' & m' & Hrun & Hm & Hnew & Hold & _).
  exists s', m'. split; [exact Hrun|]. split; [exact Hm|]. split.
  - apply Hnew. reflexivity.
  - rewrite Hold; reflexivity.
Defined.

Lemma SetBulkMetadata_compose_witness :
  obind (SetBulkMetadata (Some 2%positive) (Some xy) heap0)
        (SetBulkMetadata (Some 2%positive) (Some {[ "x" := None ]}))
  = SetBulkMetadata (Some 2%positive) (Some ({[ "x" := None ]} ∪ xy)) heap0.
Proof.
  apply (SetBulkMetadata_compose heap0 2%positive busy_accumulator xy {[ "x" := None ]}).
  reflexivity.
Defined.

Lemma CRUD_decorators_witness :
  ∃ s', AuditableCreate attached_ctx (Some (SNum 42)) (Some (SObject [("v", 1%Z)])) heap0
        = Done (<[1%positive := s']> heap0)
    ∧ ResourceID s' = Some (SNum 42)
    ∧ NewData s' = Some (SObject [("v", 1%Z)])
    ∧ only_changes_in [FResourceID; FNewData] fresh_accumulator s'.
Proof.
  destruct (CRUD_decorators attached_ctx heap0 1%positive fresh_accumulator eq_refl eq_refl)
    as (Hcreate & _).
  apply Hcreate.
Defined.


(** An update whose old value is a channel and whose new value is a
    record. *)
Lemma AuditableUpdate_then_ToEvent_witness :
  ∃ h' ev,
    AuditableUpdate attached_ctx (Some (SNum 7)) (Some SChan) (Some (SObject [("v", 2%Z)])) heap0
    = Done h'
    ∧ ToEvent (Some 1%positive) h' = Done ev
    ∧ Event.ResourceID ev = Some (SNum 7)
    ∧ Event.OldData ev = None
    ∧ Event.NewData ev = Some (object_text [("v", text "2")]).
Proof.
  destruct (AuditableUpdate_then_ToEvent attached_ctx heap0 1%positive fresh_accumulator
              (Some (SNum 7)) (Some SChan) (Some (SObject [("v", 2%Z)])) eq_refl eq_refl)
    as (h' & ev & Hrun & Hev & Hid & _ & Hnew & Hold & _).
  exists h', ev. split; [exact Hrun|]. split; [exact Hev|]. split; [exact Hid|].
  split.
  - apply Hold. right. by eexists.
  - eapply Hnew; reflexivity.
Defined.

Lemma serialized_keys_in_order_witness :
  ∃ members, Marshal_AuditEvent (to_event busy_accumulator) = Ok members
    ∧ members.*1 `sublist_of` AuditEvent_keys
    ∧ NoDup members.*1.
Proof.
  eexists. split; [vm_compute; reflexivity|].
  apply (serialized_keys_in_order (to_event busy_accumulator)). vm_compute. reflexivity.
Defined.

Lemma optional_keys_witness :
  ∃ members, Marshal_AuditEvent (to_event busy_accumulator) = Ok members
    ∧ has_key "userId" members
    ∧ has_key "responseCode" members
    ∧ has_key "newData" members
    ∧ ¬ has_key "oldData" members.
Proof.
  eexists. split; [vm_compute; reflexivity|].
  edestruct (optional_keys busy_accumulator)
    as (Huser & _ & _ & _ & _ & _ & _ & _ & _ & Hcode & Hold & Hnew);
    [vm_compute; reflexivity|].
  split; [by apply Huser|]. split; [by apply Hcode|]. split.
  - apply Hnew. eexists _, _. split; [reflexivity|]. split; [reflexivity|done].
  - intros Hkey. apply Hold in Hkey as (v & data & _ & Hdata & _). discriminate Hdata.
Defined.

Lemma unencodable_event_witness :
  (∃ ev, ToEvent (Some 1%positive) {[ 1%positive := untraceable ]} = Done ev)
  ∧ ∃ e', Marshal_AuditEvent (to_event untraceable) = Err e'.
Proof.
  split; [by eexists|].
  apply (unencodable_event untraceable). left. by eexists.
Defined.

Lemma Root_attaches_witness :
  ∃ l started,
    EchoMw_Root (NewEchoMiddleware config0) slow_handler world0
    = EchoMw_Root (NewEchoMiddleware config0) (λ _, slow_handler started) world0
    ∧ heap0 !! l = None
    ∧ GetAuditContext (request_Context (wecho started)) = Some l
    ∧ wheap started !! 1%positive = Some fresh_accumulator.
Proof.
  destruct (Root_attaches (NewEchoMiddleware config0) slow_handler world0
              (λ w, (Some (SText "trace-3"), w)) (Some (SText "trace-3")) world0
              eq_refl eq_refl eq_refl)
    as (l & started & Hroot & Hfree & _ & Hother & Hctx & _).
  exists l, started. split; [exact Hroot|]. split; [exact Hfree|]. split; [exact Hctx|].
  rewrite Hother; [reflexivity|]. intros Heq. rewrite <-Heq in Hfree. discriminate Hfree.
Defined.

Lemma For_outside_Root_witness :
  EchoMw_For (NewEchoMiddleware config0) "User" "READ" slow_handler world0
  = slow_handler world0.
Proof.
  destruct (For_outside_Root (NewEchoMiddleware config0) "User" "READ" slow_handler world0)
    as (Hmissing & _).
  apply Hmissing. reflexivity.
Defined.

Lemma For_routes_witness :
  ∃ s', EchoMw_For (NewEchoMiddleware config0) "User" "READ" slow_handler attached_world
        = slow_handler (set_heap (<[1%positive := s']> heap0) attached_world)
    ∧ Resource s' = Some "User"
    ∧ Action s' = Some "READ"
    ∧ UserID s' = Some (SNum 7).
Proof.
  destruct (For_routes (NewEchoMiddleware config0) "User" "READ" slow_handler attached_world
              1%positive fresh_accumulator eq_refl eq_refl)
    as (s' & Hrun & Hres & Hact & _ & Huser & _).
  exists s'. split; [exact Hrun|]. split; [exact Hres|]. split; [exact Hact|exact Huser].
Defined.

Lemma Root_For_dispatch_witness :
  ∃ started err w1 w2 ev,
    slow_handler started = Done (err, w1)
    ∧ EchoMw_Root (NewEchoMiddleware config0)
        (EchoMw_For (NewEchoMiddleware config0) "Order" "CREATE" slow_handler) world0
      = Done (err, w2)
    ∧ wspawned w2 = wspawned w1 ++ [GoAudit 0 [] ev]
    ∧ Event.Resource ev = Some "Order"
    ∧ Event.Action ev = Some "CREATE"
    ∧ Event.EndTime ev = wclock w1.
Proof.
  apply (Root_For_dispatch (NewEchoMiddleware config0) "Order" "CREATE" slow_handler world0
           (λ w, (Some (SText "trace-3"), w)) 0 (Some (SText "trace-3")) world0);
    try reflexivity.
  intros w. eexists _, _. split; [reflexivity|].
  intros l s Hl. by exists s.
Defined.


Lemma mutual_exclusion_witness :
  ∃ p q rs,
    pcs after_b_then_a = p :: q :: rs
    ∧ (writer_held after_b_then_a = true
       ↔ in_critical (Some {[ "a" := Some (SNum 1) ]}) p
         ∨ in_critical (Some {[ "b" := Some (SNum 2) ]}) q)
    ∧ readers_held after_b_then_a = count_reading rs.
Proof.
  assert (Hrun : run pool_ab b_then_a (start pool_ab fresh_accumulator) = Some after_b_then_a)
    by (vm_compute; reflexivity).
  destruct (mutual_exclusion fresh_accumulator (Some {[ "a" := Some (SNum 1) ]})
              (Some {[ "b" := Some (SNum 2) ]}) 1 b_then_a after_b_then_a Hrun)
    as (p & q & rs & Hpcs & Hw & _ & Hr & _).
  by exists p, q, rs.
Defined.

End MoreWitnesses.
